(** * fix_icons.py: the placeholder icon generator of int-engine

    The script decodes one embedded base64 literal and writes the decoded
    bytes to four files under [icons/], then prints a confirmation line.

    The development has four layers:
    - [Base64]: the decoder behind [base64.b64decode(data)] (CPython's
      [binascii.a2b_base64] in its default, non-strict mode), on 8-bit
      values held in [Z];
    - [Png]: a checker for the decoded payload (signature, chunk layout,
      CRC-32 of every chunk, the IHDR fields, the zlib stream of IDAT);
    - [Script]: the script itself in a state-and-exception monad over a
      working directory (a finite map from paths to nodes), the buffer
      of standard output and a log of the system calls issued;
    - [Links]: the same script over a working directory in which a
      regular file is an inode that several paths can name.

    The file system is the tree under the working directory: directories
    and regular files with their bytes. A call fails when the tree says
    so (a file where a directory is needed, a directory where a file is
    to be opened, a name that is taken) or when the environment refuses
    it; the refusals, a function of the call, stand for permissions, a
    full disk, a closed pipe and the like. Standard output is
    block-buffered: the confirmation line is written when the
    interpreter exits, and a refusal of that write turns the exit status
    into 120. In [Script] every path has a node of its own; hard links
    are in [Links], and without them the two agree ([links_run_plain]).
    Symbolic links, the creation mask, partial writes and other
    processes working in the same directory are not modelled. *)

From Stdlib Require Import ZArith Ascii String.
From stdpp Require Import gmap strings list pretty.

Local Open Scope Z_scope.

(** ** Exceptions and outcomes *)

(** The operating system's error numbers that the modelled calls report. *)
Inductive errno : Set :=
  | EEXIST | ENOENT | ENOTDIR | EISDIR | EACCES | ENOSPC | EROFS | EIO.

(** The exceptions that can leave the script: [ValueError] and
    [binascii.Error] from the decoding step, [OSError] from the file
    system steps, with its error number and, by components, the path of
    the file the failing call was about (CPython puts that path into
    the exception of a failing [mkdir] or [open]; for a failing [write]
    it is the path the file was opened under). *)
Inductive exn : Set :=
  | ValueError
  | BinasciiError (msg : string)
  | OSError (e : errno) (filename : list string).

Inductive outcome (A : Type) : Type :=
  | Ok (a : A)
  | Raise (e : exn).
Arguments Ok {A} a.
Arguments Raise {A} e.

Definition is_ok {A} (r : outcome A) : bool :=
  match r with Ok _ => true | Raise _ => false end.

(** ** Base64 decoding *)

Module Base64.

(** A text as the decoder sees it: one code per character. *)
Definition codes (s : string) : list Z :=
  map (fun a => Z.of_N (N_of_ascii a)) (list_ascii_of_string s).

(** [str.encode('ascii')], the first thing [b64decode] does to a [str]
    argument. *)
Definition encode_ascii (s : string) : outcome (list Z) :=
  let cs := codes s in
  if forallb (fun c => c <? 128) cs then Ok cs else Raise ValueError.

(** [table_a2b_base64]: the 6-bit value of an alphabet character,
    [None] for every other byte (the table's entries of 64 and more). *)
Definition table_a2b_base64 (c : Z) : option Z :=
  if (65 <=? c) && (c <=? 90) then Some (c - 65)          (* A-Z *)
  else if (97 <=? c) && (c <=? 122) then Some (c - 71)    (* a-z *)
  else if (48 <=? c) && (c <=? 57) then Some (c + 4)      (* 0-9 *)
  else if c =? 43 then Some 62                            (* + *)
  else if c =? 47 then Some 63                            (* / *)
  else None.

Definition BASE64_PAD : Z := 61.

Definition u8 (x : Z) : Z := Z.land x 255.

(** The decoder's registers between two input characters. [out] holds
    the bytes produced so far, last one first. *)
Record regs := Regs {
  quad_pos : Z;
  leftchar : Z;
  pads : Z;
  out : list Z
}.

Definition regs0 : regs := Regs 0 0 0 [].

(** One data character, by position in the quad. *)
Definition shift_in (r : regs) (v : Z) : regs :=
  match quad_pos r with
  | 0 => Regs 1 v 0 (out r)
  | 1 => Regs 2 (Z.land v 15) 0
           (u8 (Z.lor (Z.shiftl (leftchar r) 2) (Z.shiftr v 4)) :: out r)
  | 2 => Regs 3 (Z.land v 3) 0
           (u8 (Z.lor (Z.shiftl (leftchar r) 4) (Z.shiftr v 2)) :: out r)
  | _ => Regs 0 0 0
           (u8 (Z.lor (Z.shiftl (leftchar r) 6) v) :: out r)
  end.

(** The two messages of the decoder. The first carries the number of
    data characters, which the decoder works out from the number of
    bytes it has produced. *)
Definition msg_one_more (n : Z) : string :=
  "Invalid base64-encoded string: number of data characters ("
  +:+ pretty n +:+ ") cannot be 1 more than a multiple of 4".
Definition msg_padding : string := "Incorrect padding".

(** The loop of [a2b_base64] with [strict_mode] off: a pad character
    that completes a quad stops the decoding, other pad characters and
    every character outside the alphabet are skipped. *)
Fixpoint a2b_loop (s : list Z) (r : regs) : outcome (list Z) :=
  match s with
  | [] =>
      if quad_pos r =? 0 then Ok (rev (out r))
      else if quad_pos r =? 1 then
        Raise (BinasciiError
                 (msg_one_more (Z.of_nat (length (out r)) / 3 * 4 + 1)))
      else Raise (BinasciiError msg_padding)
  | c :: s' =>
      if c =? BASE64_PAD then
        if 2 <=? quad_pos r then
          if 4 <=? quad_pos r + (pads r + 1) then Ok (rev (out r))
          else a2b_loop s' (Regs (quad_pos r) (leftchar r) (pads r + 1) (out r))
        else a2b_loop s' r
      else
        match table_a2b_base64 c with
        | None => a2b_loop s' r
        | Some v => a2b_loop s' (shift_in r v)
        end
  end.

Definition a2b_base64 (s : list Z) : outcome (list Z) := a2b_loop s regs0.

(** [base64.b64decode(s)] with the default [altchars=None] and
    [validate=False]. *)
Definition b64decode (s : string) : outcome (list Z) :=
  match encode_ascii s with
  | Ok cs => a2b_base64 cs
  | Raise e => Raise e
  end.

End Base64.

(** ** The script's constants *)

Definition data : string :=
  "iVBORw0KGgoAAAANSUhEUgAAAAEAAAABCAYAAAAfFcSJAAAADUlEQVR42mP8z8BQDwAEhQGAhKmMIQAAAABJRU5ErkJggg==".

(** ** The PNG payload *)

Module Png.

(** *** Big-endian fields *)

Definition be32 (bs : list Z) : Z :=
  fold_left (fun acc b => Z.lor (Z.shiftl acc 8) b) bs 0.

(** *** CRC-32 (the polynomial of ISO 3309, reflected) *)

Definition crc_shift (c : Z) : Z :=
  if Z.testbit c 0 then Z.lxor 3988292384 (Z.shiftr c 1) else Z.shiftr c 1.

Definition crc_byte (c b : Z) : Z :=
  Nat.iter 8 crc_shift (Z.lxor c b).

Definition crc32 (bs : list Z) : Z :=
  Z.lxor (fold_left crc_byte bs 4294967295) 4294967295.

(** *** Adler-32 (the checksum that ends a zlib stream) *)

Definition adler32 (bs : list Z) : Z :=
  let '(a, b) :=
    fold_left (fun '(a, b) x =>
                 let a' := (a + x) mod 65521 in (a', (b + a') mod 65521))
              bs (1, 0) in
  Z.lor (Z.shiftl b 16) a.

(** *** Chunks *)

Record chunk := Chunk {
  ctype : list Z;
  cdata : list Z;
  ccrc : Z
}.

Definition chunk_crc_ok (c : chunk) : bool :=
  crc32 (ctype c ++ cdata c) =? ccrc c.

(** Cuts a byte sequence into chunks: length, type, data, CRC. [None]
    when a chunk is cut short. The fuel bounds the number of chunks. *)
Fixpoint chunks (fuel : nat) (bs : list Z) : option (list chunk) :=
  match bs with
  | [] => Some []
  | _ =>
      match fuel with
      | O => None
      | S fuel' =>
          let len := Z.to_nat (be32 (take 4 bs)) in
          let rest := drop 8 bs in
          if (length bs <? 12 + len)%nat then None
          else
            match chunks fuel' (drop (len + 4) rest) with
            | Some cs =>
                Some (Chunk (take 4 (drop 4 bs)) (take len rest)
                            (be32 (take 4 (drop len rest))) :: cs)
            | None => None
            end
      end
  end.

Definition signature : list Z := [137; 80; 78; 71; 13; 10; 26; 10].
Definition IHDR : list Z := [73; 72; 68; 82].
Definition IDAT : list Z := [73; 68; 65; 84].
Definition IEND : list Z := [73; 69; 78; 68].

Definition list_Z_eqb (a b : list Z) : bool := bool_decide (a = b).

(** *** The image header *)

Record header := Header {
  width : Z;
  height : Z;
  bit_depth : Z;
  colour_type : Z;
  compression : Z;
  filter_method : Z;
  interlace : Z
}.

Definition parse_header (d : list Z) : option header :=
  if (length d =? 13)%nat then
    Some (Header (be32 (take 4 d)) (be32 (take 4 (drop 4 d)))
                 (nth 8 d 0) (nth 9 d 0) (nth 10 d 0) (nth 11 d 0) (nth 12 d 0))
  else None.

(** Samples per pixel of a colour type; [None] for a type the format
    does not define. *)
Definition samples (ct : Z) : option Z :=
  match ct with
  | 0 => Some 1 | 2 => Some 3 | 3 => Some 1 | 4 => Some 2 | 6 => Some 4
  | _ => None
  end.

Definition depth_allowed (ct bd : Z) : bool :=
  match ct with
  | 0 => bool_decide (bd ∈ [1; 2; 4; 8; 16])
  | 3 => bool_decide (bd ∈ [1; 2; 4; 8])
  | 2 | 4 | 6 => bool_decide (bd ∈ [8; 16])
  | _ => false
  end.

Definition header_ok (h : header) : bool :=
  (0 <? width h) && (width h <? 2147483648)
  && (0 <? height h) && (height h <? 2147483648)
  && depth_allowed (colour_type h) (bit_depth h)
  && (compression h =? 0) && (filter_method h =? 0)
  && ((interlace h =? 0) || (interlace h =? 1)).

(** Bytes of one scanline, its filter byte included. *)
Definition scanline_bytes (h : header) : Z :=
  match samples (colour_type h) with
  | Some n => 1 + (width h * n * bit_depth h + 7) / 8
  | None => 0
  end.

(** *** The zlib stream: DEFLATE with stored and fixed-code blocks *)

(** A byte as eight bits, least significant first: the order in which
    DEFLATE consumes them. *)
Definition bits_of_byte (b : Z) : list bool :=
  map (Z.testbit b) [0; 1; 2; 3; 4; 5; 6; 7].

Definition bits (bs : list Z) : list bool := flat_map bits_of_byte bs.

(** A field of [n] bits, first bit least significant (every field but a
    Huffman code). *)
Fixpoint take_lsb (n : nat) (bs : list bool) : option (Z * list bool) :=
  match n with
  | O => Some (0, bs)
  | S n' =>
      match bs with
      | [] => None
      | b :: bs' =>
          '(v, r) ← take_lsb n' bs'; Some (Z.b2z b + 2 * v, r)
      end
  end.

(** [n] more bits of a Huffman code, first bit most significant. *)
Fixpoint take_msb (n : nat) (acc : Z) (bs : list bool) : option (Z * list bool) :=
  match n with
  | O => Some (acc, bs)
  | S n' =>
      match bs with
      | [] => None
      | b :: bs' => take_msb n' (2 * acc + Z.b2z b) bs'
      end
  end.

(** One symbol of the fixed literal/length code: 7 bits for 256-279,
    8 bits for 0-143 and 280-287, 9 bits for 144-255. *)
Definition fixed_symbol (bs : list bool) : option (Z * list bool) :=
  '(v7, r7) ← take_msb 7 0 bs;
  if v7 <=? 23 then Some (256 + v7, r7)
  else
    '(v8, r8) ← take_msb 1 v7 r7;
    if v8 <=? 191 then Some (v8 - 48, r8)
    else if v8 <=? 199 then Some (280 + (v8 - 192), r8)
    else '(v9, r9) ← take_msb 1 v8 r8; Some (144 + (v9 - 400), r9).

(** Base value and number of extra bits of the length symbols 257-285
    and of the distance symbols 0-29. *)
Definition length_table : list (Z * Z) :=
  [(3, 0); (4, 0); (5, 0); (6, 0); (7, 0); (8, 0); (9, 0); (10, 0);
   (11, 1); (13, 1); (15, 1); (17, 1); (19, 2); (23, 2); (27, 2); (31, 2);
   (35, 3); (43, 3); (51, 3); (59, 3); (67, 4); (83, 4); (99, 4); (115, 4);
   (131, 5); (163, 5); (195, 5); (227, 5); (258, 0)].

Definition distance_table : list (Z * Z) :=
  [(1, 0); (2, 0); (3, 0); (4, 0); (5, 1); (7, 1); (9, 2); (13, 2);
   (17, 3); (25, 3); (33, 4); (49, 4); (65, 5); (97, 5); (129, 6); (193, 6);
   (257, 7); (385, 7); (513, 8); (769, 8); (1025, 9); (1537, 9);
   (2049, 10); (3073, 10); (4097, 11); (6145, 11); (8193, 12); (12289, 12);
   (16385, 13); (24577, 13)].

(** Copies [len] bytes from [dist] bytes back; the output is held last
    byte first, and source and target may overlap. *)
Fixpoint copy_back (len dist : nat) (out : list Z) : option (list Z) :=
  match len with
  | O => Some out
  | S len' =>
      match dist with
      | O => None
      | S d => b ← out !! d; copy_back len' dist (b :: out)
      end
  end.

Fixpoint fixed_block (fuel : nat) (bs : list bool) (out : list Z)
  : option (list Z * list bool) :=
  match fuel with
  | O => None
  | S fuel' =>
      '(sym, r) ← fixed_symbol bs;
      if sym <? 256 then fixed_block fuel' r (sym :: out)
      else if sym =? 256 then Some (out, r)
      else
        '(lbase, lextra) ← length_table !! Z.to_nat (sym - 257);
        '(le, r1) ← take_lsb (Z.to_nat lextra) r;
        '(dsym, r2) ← take_msb 5 0 r1;
        '(dbase, dextra) ← distance_table !! Z.to_nat dsym;
        '(de, r3) ← take_lsb (Z.to_nat dextra) r2;
        out' ← copy_back (Z.to_nat (lbase + le)) (Z.to_nat (dbase + de)) out;
        fixed_block fuel' r3 out'
  end.

(** Drops the bits left of the current byte. *)
Definition align (bs : list bool) : list bool :=
  drop (length bs mod 8)%nat bs.

Fixpoint take_bytes (n : nat) (bs : list bool) (out : list Z)
  : option (list Z * list bool) :=
  match n with
  | O => Some (out, bs)
  | S n' => '(b, r) ← take_lsb 8 bs; take_bytes n' r (b :: out)
  end.

Definition stored_block (bs : list bool) (out : list Z)
  : option (list Z * list bool) :=
  '(len, r1) ← take_lsb 16 (align bs);
  '(nlen, r2) ← take_lsb 16 r1;
  if len + nlen =? 65535 then take_bytes (Z.to_nat len) r2 out else None.

(** The blocks of a DEFLATE stream, up to the one marked final. Blocks
    with dynamic codes (type 2) are outside this checker, which then
    answers [None]. *)
Fixpoint inflate (fuel : nat) (bs : list bool) (out : list Z)
  : option (list Z * list bool) :=
  match fuel with
  | O => None
  | S fuel' =>
      '(final, r0) ← take_lsb 1 bs;
      '(btype, r1) ← take_lsb 2 r0;
      '(out', r2) ←
        (if btype =? 0 then stored_block r1 out
         else if btype =? 1 then fixed_block (length r1) r1 out
         else None);
      if final =? 1 then Some (out', r2) else inflate fuel' r2 out'
  end.

(** The content of a zlib stream: header, DEFLATE data, Adler-32. *)
Definition zlib_decompress (bs : list Z) : option (list Z) :=
  match bs with
  | cmf :: flg :: body =>
      if (Z.land cmf 15 =? 8) && (Z.shiftr cmf 4 <=? 7)
         && ((cmf * 256 + flg) mod 31 =? 0) && negb (Z.testbit flg 5)
      then
        '(out, r) ← inflate (length body) (bits body) [];
        '(sum, r') ← take_bytes 4 (align r) [];
        if (be32 (rev sum) =? adler32 (rev out)) && bool_decide (r' = [])
        then Some (rev out) else None
      else None
  | _ => None
  end.

(** *** Scanline filters *)

Definition paeth (a b c : Z) : Z :=
  let p := a + b - c in
  let pa := Z.abs (p - a) in
  let pb := Z.abs (p - b) in
  let pc := Z.abs (p - c) in
  if (pa <=? pb) && (pa <=? pc) then a else if pb <=? pc then b else c.

(** The byte at position [i] of a scanline, reconstructed from the
    filtered byte [x], the bytes [acc] already reconstructed on this
    line and the line [prior] above it (absent bytes count as 0). *)
Definition recon_byte (ft : Z) (bpp : nat) (prior acc : list Z) (i : nat) (x : Z) : Z :=
  let a := if (i <? bpp)%nat then 0 else default 0 (acc !! (i - bpp)%nat) in
  let b := default 0 (prior !! i) in
  let c := if (i <? bpp)%nat then 0 else default 0 (prior !! (i - bpp)%nat) in
  (x + match ft with
       | 0 => 0
       | 1 => a
       | 2 => b
       | 3 => (a + b) / 2
       | _ => paeth a b c
       end) mod 256.

Definition unfilter_line (ft : Z) (bpp : nat) (prior line : list Z) : list Z :=
  fold_left (fun acc '(i, x) => acc ++ [recon_byte ft bpp prior acc i x])
            (zip (seq 0 (length line)) line) [].

(** The rows of the image; [None] when a filter byte is not one of the
    five filter types or the data ends early. *)
Fixpoint unfilter (rows stride bpp : nat) (raw prior : list Z)
  : option (list (list Z)) :=
  match rows with
  | O => Some []
  | S rows' =>
      match raw with
      | ft :: rest =>
          if (0 <=? ft) && (ft <=? 4) && (stride <=? length rest)%nat then
            let line := unfilter_line ft bpp prior (take stride rest) in
            ls ← unfilter rows' stride bpp (drop stride rest) line;
            Some (line :: ls)
          else None
      | [] => None
      end
  end.

(** *** The whole file *)

Record image := Image {
  ihdr : header;
  kinds : list (list Z);
  rows : list (list Z)
}.

Definition is_type (t : list Z) (c : chunk) : bool := list_Z_eqb (ctype c) t.

Fixpoint drop_while_type (t : list Z) (cs : list chunk) : list chunk :=
  match cs with
  | [] => []
  | c :: cs' => if is_type t c then drop_while_type t cs' else cs
  end.

(** True when the chunks of type [t] follow one another. *)
Fixpoint adjacent (t : list Z) (cs : list chunk) : bool :=
  match cs with
  | [] => true
  | c :: cs' =>
      if is_type t c
      then forallb (fun c' => negb (is_type t c')) (drop_while_type t cs')
      else adjacent t cs'
  end.

(** Reads a PNG file that is not interlaced and has no palette: the
    signature, well-formed chunks with matching CRCs, IHDR first and
    legal, IEND last and empty, the IDAT chunks adjacent, their zlib
    stream intact and of the size the header announces, and a legal
    filter byte in front of every scanline. Any other input, a valid
    file outside that range included, gives [None]. *)
Definition read_png (bs : list Z) : option image :=
  if negb (list_Z_eqb (take 8 bs) signature) then None
  else
    cs ← chunks (length bs) (drop 8 bs);
    if negb (forallb chunk_crc_ok cs) then None
    else
      match cs with
      | first :: rest =>
          if negb (is_type IHDR first) then None
          else
            h ← parse_header (cdata first);
            lastc ← last rest;
            n ← samples (colour_type h);
            let idats := filter (fun c => is_type IDAT c = true) rest in
            raw ← zlib_decompress (flat_map cdata idats);
            if header_ok h && (interlace h =? 0)
               && negb (colour_type h =? 3)
               && adjacent IDAT rest
               && is_type IEND lastc && bool_decide (cdata lastc = [])
               && (Z.of_nat (length raw) =? height h * scanline_bytes h)
            then
              ls ← unfilter (Z.to_nat (height h))
                            (Z.to_nat (scanline_bytes h - 1))
                            (Z.to_nat (Z.max 1 (n * bit_depth h / 8)))
                            raw [];
              Some (Image h (map ctype cs) ls)
            else None
      | [] => None
      end.

End Png.

(** ** The script *)

Module Script.

(** *** Paths *)

(** A path inside the working directory: its components, outermost
    first. The empty path is the working directory itself. *)
Definition path : Type := list string.

Definition starts_with_slash (s : string) : bool :=
  match s with
  | String c _ => Ascii.eqb c "/"
  | EmptyString => false
  end.

Fixpoint ends_with_slash (s : string) : bool :=
  match s with
  | EmptyString => false
  | String c EmptyString => Ascii.eqb c "/"
  | String _ s' => ends_with_slash s'
  end.

(** [os.path.join(a, b)] on a POSIX system. *)
Definition join (a b : string) : string :=
  if starts_with_slash b then b
  else if bool_decide (a = "") || ends_with_slash a then a +:+ b
  else a +:+ "/" +:+ b.

Fixpoint split_slash (s cur : string) : list string :=
  match s with
  | EmptyString => [cur]
  | String c s' =>
      if Ascii.eqb c "/" then cur :: split_slash s' ""
      else split_slash s' (cur +:+ String c "")
  end.

(** The components the system resolves a relative path name into:
    empty components and [.] are dropped. This is resolution for the
    names of the script only, [icons] and [icons/<name>]: absolute
    names, [..] and a trailing slash, which the system treats
    differently, do not occur in them. *)
Definition components (name : string) : path :=
  filter (fun c => c ≠ "" ∧ c ≠ ".") (split_slash name "").

(** *** The world *)

Inductive node : Type :=
  | Dir
  | File (content : list Z).

#[global] Instance node_eq_dec : EqDecision node.
Proof. solve_decision. Defined.

(** The system calls of a run: those of the script, none of which
    reads the content of a file or removes an entry, and the write of
    the buffered lines to standard output, which the interpreter issues
    when the process ends. *)
Inductive syscall : Type :=
  | SysMkdir (p : path)
  | SysStat (p : path)
  | SysOpen (p : path)
  | SysWrite (p : path) (bytes : list Z)
  | SysClose (p : path)
  | SysStdout (lines : list string).

(** What a run can see and change: the tree under the working
    directory, the lines printed so far, which [sys.stdout] holds in
    its buffer until the process ends, the calls issued so far (oldest
    first), and the arguments and environment of the process. *)
Record world := World {
  fs : gmap path node;
  stdout : list string;
  calls : list syscall;
  argv : list string;
  environ : gmap string string
}.

Definition set_fs (m : gmap path node) (w : world) : world :=
  World m (stdout w) (calls w) (argv w) (environ w).

Definition add_call (c : syscall) (w : world) : world :=
  World (fs w) (stdout w) (calls w ++ [c]) (argv w) (environ w).

Definition add_output (line : string) (w : world) : world :=
  World (fs w) (stdout w ++ [line]) (calls w) (argv w) (environ w).

(** The node at a path; the working directory is a directory. *)
Definition node_at (m : gmap path node) (p : path) : option node :=
  match p with
  | [] => Some Dir
  | _ => m !! p
  end.

(** Resolution of the directories in front of the last component of
    [rest], [pre] being resolved already: each must be a directory. *)
Fixpoint walk (m : gmap path node) (pre rest : path) : option errno :=
  match rest with
  | [] => None
  | [_] => None
  | c :: rest' =>
      match m !! (pre ++ [c]) with
      | Some Dir => walk m (pre ++ [c]) rest'
      | Some (File _) => Some ENOTDIR
      | None => Some ENOENT
      end
  end.

(** *** The monad of the script: state and exceptions *)

Definition M (A : Type) : Type := world → outcome A * world.

#[global] Instance M_ret : MRet M := λ A a w, (Ok a, w).

#[global] Instance M_bind : MBind M := λ A B f m w,
  match m w with
  | (Ok a, w') => f a w'
  | (Raise e, w') => (Raise e, w')
  end.

Definition raise {A} (e : exn) : M A := λ w, (Raise e, w).

(** A pure computation that may raise. *)
Definition lift {A} (r : outcome A) : M A := λ w, (r, w).

(** [try: m], its exception handed to the continuation as a value. *)
Definition try_ {A} (m : M A) : M (outcome A) := λ w,
  let '(r, w') := m w in (Ok r, w').

Definition skip : M unit := mret tt.

Definition call (c : syscall) : M unit := λ w, (Ok tt, add_call c w).

Definition get_fs : M (gmap path node) := λ w, (Ok (fs w), w).

Definition put_fs (m : gmap path node) : M unit := λ w, (Ok tt, set_fs m w).

Fixpoint for_each {A} (l : list A) (body : A → M unit) : M unit :=
  match l with
  | [] => mret tt
  | x :: l' => body x ;; for_each l' body
  end.

(** *** System calls and library functions *)

Section Calls.

(** The environment's verdict on a call that creates or changes
    something: [Some e] when it refuses the call for a reason the
    tree does not show (permissions, a full or read-only disk, an
    I/O error). The verdict depends on the call alone: the same call
    is answered the same way throughout. *)
Variable fault : syscall → option errno.

(** Logs the call and asks the environment. *)
Definition attempt (c : syscall) (p : path) : M unit :=
  call c;;
  match fault c with
  | Some e => raise (OSError e p)
  | None => skip
  end.

(** [mkdir(2)]. *)
Definition mkdir_at (p : path) : M unit :=
  attempt (SysMkdir p) p;;
  m ← get_fs;
  match walk m [] p with
  | Some e => raise (OSError e p)
  | None =>
      match node_at m p with
      | Some _ => raise (OSError EEXIST p)
      | None => put_fs (<[p := Dir]> m)
      end
  end.

(** [stat(2)]; it changes nothing and the environment does not
    refuse it. *)
Definition stat_at (p : path) : M node :=
  call (SysStat p);;
  m ← get_fs;
  match walk m [] p with
  | Some e => raise (OSError e p)
  | None =>
      match node_at m p with
      | Some n => mret n
      | None => raise (OSError ENOENT p)
      end
  end.

(** [os.path.exists] and [os.path.isdir]: a failing [stat] is a
    plain [False]. *)
Definition exists_at (p : path) : M bool :=
  r ← try_ (stat_at p); mret (is_ok r).

Definition isdir_at (p : path) : M bool :=
  r ← try_ (stat_at p);
  mret (match r with Ok Dir => true | _ => false end).

(** [os.makedirs] on the components of its argument, last component
    first: the missing parents, then the directory itself, whose
    [mkdir] may fail when [exist_ok] is set and the directory is
    there. *)
Fixpoint makedirs_rev (rp : list string) (exist_ok : bool) : M unit :=
  match rp with
  | _ :: (_ :: _) as rhead =>
      ex ← exists_at (rev rhead);
      if (ex : bool) then skip
      else
        r ← try_ (makedirs_rev rhead exist_ok);
        match r with
        | Ok _ => skip
        | Raise (OSError EEXIST _) => skip
        | Raise e => raise e
        end
  | _ => skip
  end;;
  r ← try_ (mkdir_at (rev rp));
  match r with
  | Ok _ => skip
  | Raise (OSError e q) =>
      if exist_ok then
        d ← isdir_at (rev rp);
        if (d : bool) then skip else raise (OSError e q)
      else raise (OSError e q)
  | Raise e => raise e
  end.

Definition makedirs (name : string) (exist_ok : bool) : M unit :=
  makedirs_rev (rev (components name)) exist_ok.

(** An open file: where it is and the position of the next write. *)
Record handle := Handle { hpath : path; hpos : nat }.

(** [open(name, "wb")]: [open(2)] with [O_WRONLY|O_CREAT|O_TRUNC].
    The file is empty afterwards, whether it existed or not. *)
Definition open_wb (name : string) : M handle :=
  let p := components name in
  attempt (SysOpen p) p;;
  m ← get_fs;
  match walk m [] p with
  | Some e => raise (OSError e p)
  | None =>
      match node_at m p with
      | Some Dir => raise (OSError EISDIR p)
      | _ => put_fs (<[p := File []]> m);; mret (Handle p 0)
      end
  end.

(** [f.write(bs)] together with the flush that closing the file
    forces: the bytes go to the file at the handle's position, which
    here never lies beyond the end of the file. A refused write
    leaves the file as it was. *)
Definition write (f : handle) (bs : list Z) : M unit :=
  attempt (SysWrite (hpath f) bs) (hpath f);;
  m ← get_fs;
  match m !! hpath f with
  | Some (File c) =>
      put_fs (<[hpath f :=
                  File (take (hpos f) c ++ bs
                        ++ drop (hpos f + length bs) c)]> m)
  | _ => raise (OSError EIO (hpath f))
  end.

Definition close (f : handle) : M unit := call (SysClose (hpath f)).

(** [with open(name, "wb") as f: body]: the file is closed on every
    way out of the body. *)
Definition with_open {A} (name : string) (body : handle → M A) : M A :=
  f ← open_wb name;
  r ← try_ (body f);
  close f;;
  lift r.

(** [print(s)]: one more line in the buffer of [sys.stdout]. Standard
    output is taken to be block-buffered, as it is whenever it is not a
    terminal, so that nothing is written before the process ends. *)
Definition print (s : string) : M unit := λ w, (Ok tt, add_output s w).

(** *** fix_icons.py *)

Definition manifest : list string :=
  ["32x32.png"; "128x128.png"; "128x128@2x.png"; "icon.png"].

Definition confirmation : string := "Minimalist icons generated".

Definition write_icon (icon_bytes : list Z) (name : string) : M unit :=
  with_open (join "icons" name) (λ f, write f icon_bytes).

Definition script : M unit :=
  icon_bytes ← lift (Base64.b64decode data);
  makedirs "icons" true;;
  for_each manifest (write_icon icon_bytes);;
  print confirmation.

(** *** The process *)

Record process := Process {
  proc_argv : list string;
  proc_environ : gmap string string
}.

(** What a run leaves behind: the exit status of the interpreter, the
    uncaught exception it reports, the tree, what has appeared on
    standard output and the calls made. *)
Record result := Result {
  status : Z;
  error : option exn;
  files : gmap path node;
  output : list string;
  trace : list syscall
}.

(** The world a process starts in: nothing printed, no call made. *)
Definition init (pr : process) (m : gmap path node) : world :=
  World m [] [] (proc_argv pr) (proc_environ pr).

(** The exit status of the script proper: 1 after an uncaught
    exception. *)
Definition exit_code {A} (r : outcome A) : Z :=
  match r with Ok _ => 0 | Raise _ => 1 end.

Definition uncaught {A} (r : outcome A) : option exn :=
  match r with Ok _ => None | Raise e => Some e end.

(** What the interpreter does when the script is done, normally or
    not: it writes the buffered lines out. With nothing in the buffer
    there is nothing to write; when the environment refuses the write
    (a full device, a closed pipe), nothing appears on standard output
    and the exit status is 120, whatever the script's own. *)
Definition at_exit {A} (r : outcome A) (w : world) : result :=
  match stdout w with
  | [] => Result (exit_code r) (uncaught r) (fs w) [] (calls w)
  | lines =>
      match fault (SysStdout lines) with
      | None =>
          Result (exit_code r) (uncaught r) (fs w) lines
                 (calls w ++ [SysStdout lines])
      | Some _ =>
          Result 120 (uncaught r) (fs w) [] (calls w ++ [SysStdout lines])
      end
  end.

Definition run (pr : process) (m : gmap path node) : result :=
  let '(r, w) := script (init pr m) in at_exit r w.

End Calls.

Definition no_fault : syscall → option errno := λ _, None.
Definition proc0 : process := Process [] ∅.

End Script.


Import Script.

(** ** The script over a file system with hard links *)

(** The tree of [Script] gives every path a node of its own: what is
    written under one path cannot show under another. Here a regular
    file is an inode and a path names one; two paths with one inode
    number are hard links of one file, and [open] with [O_TRUNC] empties
    the inode it finds instead of putting a new one in its place. The
    calls, their log and the refusals of the environment are those of
    [Script]. Symbolic links are left out here too: every path names
    its entry directly. *)
Module Links.

(** *** The world *)

Inductive entry : Type :=
  | EDir
  | EFile (ino : nat).

#[global] Instance entry_eq_dec : EqDecision entry.
Proof. solve_decision. Defined.

(** The names under the working directory and the bytes of the
    inodes. *)
Record tree := Tree {
  names : gmap path entry;
  inodes : gmap nat (list Z)
}.

(** What a path shows: a directory, or the bytes of its inode. *)
Definition read (t : tree) (p : path) : option node :=
  match names t !! p with
  | Some EDir => Some Dir
  | Some (EFile i) => File <$> inodes t !! i
  | None => None
  end.

Record world := World {
  disk : tree;
  stdout : list string;
  calls : list syscall
}.

Definition set_disk (t : tree) (w : world) : world :=
  World t (stdout w) (calls w).

Definition add_call (c : syscall) (w : world) : world :=
  World (disk w) (stdout w) (calls w ++ [c]).

Definition add_output (line : string) (w : world) : world :=
  World (disk w) (stdout w ++ [line]) (calls w).

(** The entry at a path; the working directory is a directory. *)
Definition entry_at (t : tree) (p : path) : option entry :=
  match p with
  | [] => Some EDir
  | _ => names t !! p
  end.

Fixpoint walk (t : tree) (pre rest : path) : option errno :=
  match rest with
  | [] => None
  | [_] => None
  | c :: rest' =>
      match names t !! (pre ++ [c]) with
      | Some EDir => walk t (pre ++ [c]) rest'
      | Some (EFile _) => Some ENOTDIR
      | None => Some ENOENT
      end
  end.

(** *** The monad *)

Definition M (A : Type) : Type := world → outcome A * world.

#[global] Instance M_ret : MRet M := λ A a w, (Ok a, w).

#[global] Instance M_bind : MBind M := λ A B f m w,
  match m w with
  | (Ok a, w') => f a w'
  | (Raise e, w') => (Raise e, w')
  end.

Definition raise {A} (e : exn) : M A := λ w, (Raise e, w).

Definition lift {A} (r : outcome A) : M A := λ w, (r, w).

Definition try_ {A} (m : M A) : M (outcome A) := λ w,
  let '(r, w') := m w in (Ok r, w').

Definition skip : M unit := mret tt.

Definition call (c : syscall) : M unit := λ w, (Ok tt, add_call c w).

Definition get_disk : M tree := λ w, (Ok (disk w), w).

Definition put_disk (t : tree) : M unit := λ w, (Ok tt, set_disk t w).

Fixpoint for_each {A} (l : list A) (body : A → M unit) : M unit :=
  match l with
  | [] => mret tt
  | x :: l' => body x ;; for_each l' body
  end.

(** *** System calls and library functions *)

Section Calls.

Variable fault : syscall → option errno.

Definition attempt (c : syscall) (p : path) : M unit :=
  call c;;
  match fault c with
  | Some e => raise (OSError e p)
  | None => skip
  end.

Definition mkdir_at (p : path) : M unit :=
  attempt (SysMkdir p) p;;
  t ← get_disk;
  match walk t [] p with
  | Some e => raise (OSError e p)
  | None =>
      match entry_at t p with
      | Some _ => raise (OSError EEXIST p)
      | None => put_disk (Tree (<[p := EDir]> (names t)) (inodes t))
      end
  end.

Definition stat_at (p : path) : M entry :=
  call (SysStat p);;
  t ← get_disk;
  match walk t [] p with
  | Some e => raise (OSError e p)
  | None =>
      match entry_at t p with
      | Some n => mret n
      | None => raise (OSError ENOENT p)
      end
  end.

Definition exists_at (p : path) : M bool :=
  r ← try_ (stat_at p); mret (is_ok r).

Definition isdir_at (p : path) : M bool :=
  r ← try_ (stat_at p);
  mret (match r with Ok EDir => true | _ => false end).

Fixpoint makedirs_rev (rp : list string) (exist_ok : bool) : M unit :=
  match rp with
  | _ :: (_ :: _) as rhead =>
      ex ← exists_at (rev rhead);
      if (ex : bool) then skip
      else
        r ← try_ (makedirs_rev rhead exist_ok);
        match r with
        | Ok _ => skip
        | Raise (OSError EEXIST _) => skip
        | Raise e => raise e
        end
  | _ => skip
  end;;
  r ← try_ (mkdir_at (rev rp));
  match r with
  | Ok _ => skip
  | Raise (OSError e q) =>
      if exist_ok then
        d ← isdir_at (rev rp);
        if (d : bool) then skip else raise (OSError e q)
      else raise (OSError e q)
  | Raise e => raise e
  end.

Definition makedirs (name : string) (exist_ok : bool) : M unit :=
  makedirs_rev (rev (components name)) exist_ok.

(** An open file: the path it was opened under, its inode and the
    position of the next write. *)
Record handle := Handle { hpath : path; hino : nat; hpos : nat }.

(** [open(name, "wb")]: an existing file keeps its inode and loses its
    bytes, under all its names; a missing one gets an inode that is
    not in use. *)
Definition open_wb (name : string) : M handle :=
  let p := components name in
  attempt (SysOpen p) p;;
  t ← get_disk;
  match walk t [] p with
  | Some e => raise (OSError e p)
  | None =>
      match entry_at t p with
      | Some EDir => raise (OSError EISDIR p)
      | Some (EFile i) =>
          put_disk (Tree (names t) (<[i := []]> (inodes t)));;
          mret (Handle p i 0)
      | None =>
          let i := fresh (dom (inodes t)) in
          put_disk (Tree (<[p := EFile i]> (names t))
                         (<[i := []]> (inodes t)));;
          mret (Handle p i 0)
      end
  end.

(** [f.write(bs)] with the flush at closing: the bytes go to the inode
    of the handle. *)
Definition write (f : handle) (bs : list Z) : M unit :=
  attempt (SysWrite (hpath f) bs) (hpath f);;
  t ← get_disk;
  match inodes t !! hino f with
  | Some c =>
      put_disk (Tree (names t)
                     (<[hino f := take (hpos f) c ++ bs
                                  ++ drop (hpos f + length bs) c]>
                        (inodes t)))
  | None => raise (OSError EIO (hpath f))
  end.

Definition close (f : handle) : M unit := call (SysClose (hpath f)).

Definition with_open {A} (name : string) (body : handle → M A) : M A :=
  f ← open_wb name;
  r ← try_ (body f);
  close f;;
  lift r.

Definition print (s : string) : M unit := λ w, (Ok tt, add_output s w).

(** *** fix_icons.py *)

Definition write_icon (icon_bytes : list Z) (name : string) : M unit :=
  with_open (join "icons" name) (λ f, write f icon_bytes).

Definition script : M unit :=
  icon_bytes ← lift (Base64.b64decode data);
  makedirs "icons" true;;
  for_each manifest (write_icon icon_bytes);;
  print confirmation.

(** *** The process *)

Record result := Result {
  status : Z;
  error : option exn;
  files : tree;
  output : list string;
  trace : list syscall
}.

Definition init (t : tree) : world := World t [] [].

Definition at_exit {A} (r : outcome A) (w : world) : result :=
  match stdout w with
  | [] => Result (exit_code r) (uncaught r) (disk w) [] (calls w)
  | lines =>
      match fault (SysStdout lines) with
      | None =>
          Result (exit_code r) (uncaught r) (disk w) lines
                 (calls w ++ [SysStdout lines])
      | Some _ =>
          Result 120 (uncaught r) (disk w) [] (calls w ++ [SysStdout lines])
      end
  end.

Definition run (t : tree) : result :=
  let '(r, w) := script (init t) in at_exit r w.

End Calls.

End Links.

(** ** Vocabulary of the statements *)

(** The bytes of the embedded image, written out. *)
Definition payload : list Z :=
  [137; 80; 78; 71; 13; 10; 26; 10;
   0; 0; 0; 13; 73; 72; 68; 82; 0; 0; 0; 1; 0; 0; 0; 1; 8; 6; 0; 0; 0;
   31; 21; 196; 137;
   0; 0; 0; 13; 73; 68; 65; 84; 120; 218; 99; 252; 207; 192; 80; 15; 0; 4;
   133; 1; 128; 132; 169; 140; 33;
   0; 0; 0; 0; 73; 69; 78; 68; 174; 66; 96; 130].

(** The directory of the icons and the file of an icon in it. *)
Definition icons_dir : path := ["icons"].
Definition target (name : string) : path := ["icons"; name].

(** The calls that write the bytes [bs] to one icon. *)
Definition icon_calls (bs : list Z) (name : string) : list syscall :=
  [SysOpen (target name); SysWrite (target name) bs; SysClose (target name)].

(** The tree with the icons named in [names] written into it. *)
Definition with_icons (bs : list Z) (names : list string)
    (m : gmap path node) : gmap path node :=
  foldl (λ acc x, <[target x := File bs]> acc) m names.

(** What writing an icon needs: the environment refuses neither the
    opening nor the writing, [icons] is a directory, and the icon is not
    itself a directory. *)
Definition can_write (fault : syscall → option errno) (bs : list Z)
    (m : gmap path node) (name : string) : Prop :=
  fault (SysOpen (target name)) = None
  ∧ m !! icons_dir = Some Dir
  ∧ m !! target name ≠ Some Dir
  ∧ fault (SysWrite (target name) bs) = None.

(** What stops the creation of [icons] with the error number [en]: it is
    not a directory already, and either the environment refuses the
    [mkdir] with [en] or a file has the name and [en] is [EEXIST]. *)
Definition dir_blocked (fault : syscall → option errno)
    (m : gmap path node) (en : errno) : Prop :=
  m !! icons_dir ≠ Some Dir
  ∧ match fault (SysMkdir icons_dir) with
    | Some e => en = e
    | None => en = EEXIST ∧ ∃ c, m !! icons_dir = Some (File c)
    end.

(** What the creation step leaves when it passes: the tree [m1] and the
    calls [cs] it took. Either [icons] was missing and is made, or it
    was a directory and is left alone. *)
Definition dir_ready (fault : syscall → option errno)
    (m m1 : gmap path node) (cs : list syscall) : Prop :=
  (m !! icons_dir = None ∧ fault (SysMkdir icons_dir) = None
   ∧ m1 = <[icons_dir := Dir]> m ∧ cs = [SysMkdir icons_dir])
  ∨ (m !! icons_dir = Some Dir ∧ m1 = m
     ∧ cs = [SysMkdir icons_dir; SysStat icons_dir]).

(** The tree an empty working directory turns into. *)
Definition fresh_tree : gmap path node :=
  {[ icons_dir := Dir;
     target "32x32.png" := File payload;
     target "128x128.png" := File payload;
     target "128x128@2x.png" := File payload;
     target "icon.png" := File payload ]}.




(** ** Vocabulary of the further properties *)

(** A byte, and a character of the base64 alphabet. *)
Definition is_byte (b : Z) : Prop := 0 ≤ b < 256.

#[global] Instance is_byte_dec (b : Z) : Decision (is_byte b).
Proof. unfold is_byte. apply _. Defined.

Definition in_alphabet (c : Z) : Prop :=
  is_Some (Base64.table_a2b_base64 c).

(** The base64 encoding of RFC 4648, the function [b64decode] is there
    to undo: the character of a 6-bit value, and the text of a byte
    sequence, three bytes to four characters, padded with [=]. *)
Definition b2a (v : Z) : Z :=
  if v <? 26 then v + 65
  else if v <? 52 then v + 71
  else if v <? 62 then v - 4
  else if v =? 62 then 43
  else 47.

Definition sextet0 (b0 : Z) : Z := Z.shiftr b0 2.
Definition sextet1 (b0 b1 : Z) : Z :=
  Z.lor (Z.shiftl (Z.land b0 3) 4) (Z.shiftr b1 4).
Definition sextet2 (b1 b2 : Z) : Z :=
  Z.lor (Z.shiftl (Z.land b1 15) 2) (Z.shiftr b2 6).
Definition sextet3 (b2 : Z) : Z := Z.land b2 63.

Fixpoint b64encode (bs : list Z) : list Z :=
  match bs with
  | [] => []
  | [b0] => [b2a (sextet0 b0); b2a (sextet1 b0 0); 61; 61]
  | [b0; b1] =>
      [b2a (sextet0 b0); b2a (sextet1 b0 b1); b2a (sextet2 b1 0); 61]
  | b0 :: b1 :: b2 :: rest =>
      b2a (sextet0 b0) :: b2a (sextet1 b0 b1) :: b2a (sextet2 b1 b2)
      :: b2a (sextet3 b2) :: b64encode rest
  end.

(** The arithmetic of one group: the four 6-bit values are in range and
    the decoder's shifts give the bytes back. *)
Definition group_check (a b : Z) : bool :=
  (sextet0 a <? 64) && (0 <=? sextet0 a)
  && (sextet1 a b <? 64) && (0 <=? sextet1 a b)
  && (sextet2 a b <? 64) && (0 <=? sextet2 a b)
  && (sextet3 a <? 64) && (0 <=? sextet3 a)
  && (Base64.u8 (Z.lor (Z.shiftl (sextet0 a) 2) (Z.shiftr (sextet1 a b) 4))
      =? a)
  && (Z.land (sextet1 a b) 15 =? Z.shiftr b 4)
  && (Base64.u8 (Z.lor (Z.shiftl (Z.shiftr a 4) 4)
                       (Z.shiftr (sextet2 a b) 2)) =? a)
  && (Z.land (sextet2 a b) 3 =? Z.shiftr b 6)
  && (Base64.u8 (Z.lor (Z.shiftl (Z.shiftr a 6) 6) (sextet3 a)) =? a).

(** The text with the given character codes. *)
Definition text_of (cs : list Z) : string :=
  string_of_list_ascii (map (λ c, ascii_of_N (Z.to_N c)) cs).

(** What stops the opening of an icon with the error number [en]: the
    environment's refusal, or else the state of [icons] or of the icon
    itself. *)
Definition open_blocked (fault : syscall → option errno)
    (m : gmap path node) (name : string) (en : errno) : Prop :=
  match fault (SysOpen (target name)) with
  | Some e => en = e
  | None =>
      match m !! icons_dir with
      | Some Dir => m !! target name = Some Dir ∧ en = EISDIR
      | Some (File _) => en = ENOTDIR
      | None => en = ENOENT
      end
  end.

(** What stops the writing of an icon that was opened: the environment
    refuses the write with [en]. *)
Definition write_blocked (fault : syscall → option errno) (bs : list Z)
    (m : gmap path node) (name : string) (en : errno) : Prop :=
  fault (SysOpen (target name)) = None
  ∧ m !! icons_dir = Some Dir
  ∧ m !! target name ≠ Some Dir
  ∧ fault (SysWrite (target name) bs) = Some en.

(** A log in which every [write] is directly followed by the [close] of
    the same file. *)
Fixpoint write_then_close (l : list syscall) : Prop :=
  match l with
  | [] => True
  | SysWrite p _ :: rest =>
      match rest with
      | SysClose q :: _ => p = q
      | _ => False
      end ∧ write_then_close rest
  | _ :: rest => write_then_close rest
  end.

(** ** Vocabulary of the frame property *)

(** The inodes that the four icon paths name in a tree. *)
Definition icon_inode (t : Links.tree) (i : nat) : Prop :=
  ∃ x, x ∈ manifest ∧ Links.names t !! target x = Some (Links.EFile i).

(** The calls of the script: those on [icons], those on the four icons,
    and the write of the confirmation line. *)
Definition script_call (c : syscall) : Prop :=
  c = SysMkdir icons_dir ∨ c = SysStat icons_dir
  ∨ (∃ x, x ∈ manifest ∧ c ∈ icon_calls payload x)
  ∨ c = SysStdout [confirmation].

(** What the script may have made of the tree [t0] when the tree is
    [t]: the names other than [icons] and the four icons are as they
    were, a name that was there still names what it named, the bytes of
    an inode have changed only if an icon path named it in [t0], and an
    icon names its old inode or one that was not in use. *)
Definition frame (t0 t : Links.tree) : Prop :=
  (∀ q, q ≠ icons_dir → (∀ x, x ∈ manifest → q ≠ target x) →
     Links.names t !! q = Links.names t0 !! q)
  ∧ (∀ e, Links.names t0 !! icons_dir = Some e →
       Links.names t !! icons_dir = Some e)
  ∧ (∀ x i, x ∈ manifest →
       Links.names t0 !! target x = Some (Links.EFile i) →
       Links.names t !! target x = Some (Links.EFile i))
  ∧ (∀ i c, Links.inodes t0 !! i = Some c → ¬ icon_inode t0 i →
       Links.inodes t !! i = Some c)
  ∧ (∀ x i, x ∈ manifest →
       Links.names t !! target x = Some (Links.EFile i) →
       icon_inode t0 i ∨ Links.inodes t0 !! i = None)
  ∧ (∀ i, is_Some (Links.inodes t0 !! i) → is_Some (Links.inodes t !! i)).



(** The tree [t'] has every name of [t], naming what it named, and
    every inode that held [bs] in [t] holds it in [t']. *)
Definition keeps_names (bs : list Z) (t t' : Links.tree) : Prop :=
  (∀ q e, Links.names t !! q = Some e → Links.names t' !! q = Some e)
  ∧ (∀ i, Links.inodes t !! i = Some bs → Links.inodes t' !! i = Some bs).

(** The icon [x] is a file that holds [bs]. *)
Definition icon_holds (bs : list Z) (t : Links.tree) (x : string) : Prop :=
  ∃ i, Links.names t !! target x = Some (Links.EFile i)
       ∧ Links.inodes t !! i = Some bs.

(** A working directory in which [backup.png] is a second name, a hard
    link, of the file [icons/icon.png]. *)
Definition linked_tree : Links.tree :=
  Links.Tree {[ icons_dir := Links.EDir;
                target "icon.png" := Links.EFile 0;
                ["backup.png"] := Links.EFile 0 ]}
             {[ 0%nat := [1; 2; 3] ]}.


(** ** The decoding step *)

Lemma decode_payload : Base64.b64decode data = Ok payload.
Proof. vm_compute. reflexivity. Qed.

Lemma payload_length : length payload = 70%nat.
Proof. reflexivity. Qed.

(** The payload read as a PNG file: one row of one pixel with four
    8-bit samples (red 255, green 0, blue 0, alpha 127), in the three
    chunks every PNG file must have. *)
Lemma payload_png :
  Png.read_png payload
  = Some (Png.Image (Png.Header 1 1 8 6 0 0 0)
                    [Png.IHDR; Png.IDAT; Png.IEND]
                    [[255; 0; 0; 127]]).
Proof. vm_compute. reflexivity. Qed.

(** ** Path names of the script *)

Lemma components_icons : components "icons" = icons_dir.
Proof. vm_compute. reflexivity. Qed.

Lemma join_target (x : string) :
  x ∈ manifest → components (join "icons" x) = target x.
Proof.
  unfold manifest. rewrite !elem_of_cons, elem_of_nil.
  intros [-> | [-> | [-> | [-> | []]]]]; vm_compute; reflexivity.
Qed.

Lemma target_inj (x y : string) : target x = target y → x = y.
Proof. unfold target. congruence. Qed.

Lemma target_not_dir (x : string) : target x ≠ icons_dir.
Proof. discriminate. Qed.

Lemma manifest_NoDup : NoDup manifest.
Proof. apply (bool_decide_unpack (NoDup manifest)). vm_compute. exact I. Qed.

(** ** The steps of the script, one at a time *)

Section Steps.

Variable fault : syscall → option errno.

Lemma world_eta (w : world) :
  w = World (fs w) (stdout w) (calls w) (argv w) (environ w).
Proof. destruct w; reflexivity. Qed.

Ltac step :=
  unfold attempt, call, get_fs, put_fs, try_, close, lift, write, skip,
    raise, mbind, M_bind, mret, M_ret, add_call, set_fs, add_output;
  cbn [fs stdout calls argv environ hpath hpos fst snd].

Lemma walk_target (m : gmap path node) (x : string) :
  walk m [] (target x)
  = match m !! icons_dir with
    | Some Dir => None
    | Some (File _) => Some ENOTDIR
    | None => Some ENOENT
    end.
Proof. reflexivity. Qed.

Lemma node_at_target (m : gmap path node) (x : string) :
  node_at m (target x) = m !! target x.
Proof. reflexivity. Qed.

Lemma walk_icons (m : gmap path node) : walk m [] icons_dir = None.
Proof. reflexivity. Qed.

Lemma node_at_icons (m : gmap path node) :
  node_at m icons_dir = m !! icons_dir.
Proof. reflexivity. Qed.

(** Writing one icon: either it can be written and is, or the step
    raises on that icon's path, having at most emptied the file. *)
Lemma write_icon_spec (bs : list Z) (x : string) (w : world) :
  x ∈ manifest →
  (can_write fault bs (fs w) x
   ∧ write_icon fault bs x w
     = (Ok tt, World (<[target x := File bs]> (fs w)) (stdout w)
                     (calls w ++ icon_calls bs x) (argv w) (environ w)))
  ∨ (¬ can_write fault bs (fs w) x
     ∧ ∃ en m' cs,
         write_icon fault bs x w
         = (Raise (OSError en (target x)),
            World m' (stdout w) (calls w ++ cs) (argv w) (environ w))
         ∧ ((m' = fs w ∧ cs = [SysOpen (target x)])
            ∨ (m' = <[target x := File []]> (fs w)
               ∧ cs = icon_calls bs x))).
Proof.
  intros Hx. unfold can_write, write_icon, with_open, open_wb.
  rewrite (join_target x Hx). step.
  destruct (fault (SysOpen (target x))) as [e|] eqn:Ho; step.
  { right. split; [intros (? & _); discriminate |].
    eexists _, _, _. split; [reflexivity | left; done]. }
  rewrite walk_target, node_at_target.
  destruct (fs w !! icons_dir) as [[|c]|] eqn:Hd;
    try (right; split; [intros (_ & ? & _); discriminate |];
         eexists _, _, _; split; [reflexivity | left; done]).
  destruct (fs w !! target x) as [[|c']|] eqn:Hn.
  { right. split; [intros (_ & _ & ? & _); done |].
    eexists _, _, _. split; [reflexivity | left; done]. }
  all: step.
  all: destruct (fault (SysWrite (target x) bs)) as [e|] eqn:Hw; step.
  1,3: right; split; [intros (_ & _ & _ & ?); discriminate |];
    eexists _, _, _; (split; [| right; split; reflexivity]);
    unfold icon_calls; by rewrite <- !app_assoc.
  all: left; split; [done |].
  all: rewrite lookup_insert_eq; step.
  all: rewrite insert_insert_eq, drop_nil, app_nil_r; cbn [take app].
  all: unfold icon_calls; by rewrite <- !app_assoc.
Qed.

Lemma for_each_cons_ok {A} (body : A → M unit) (x : A) (l : list A)
    (w w1 : world) :
  body x w = (Ok tt, w1) →
  for_each (x :: l) body w = for_each l body w1.
Proof. intros H. cbn [for_each]. step. by rewrite H. Qed.

Lemma for_each_cons_raise {A} (body : A → M unit) (x : A) (l : list A)
    (w w1 : world) (e : exn) :
  body x w = (Raise e, w1) →
  for_each (x :: l) body w = (Raise e, w1).
Proof. intros H. cbn [for_each]. step. by rewrite H. Qed.

Lemma can_write_insert (bs : list Z) (m : gmap path node) (x y : string)
    (n : node) :
  x ≠ y →
  can_write fault bs (<[target x := n]> m) y ↔ can_write fault bs m y.
Proof.
  intros Hxy. unfold can_write.
  rewrite (lookup_insert_ne m (target x) icons_dir) by discriminate.
  rewrite (lookup_insert_ne m (target x) (target y))
    by (intros ?%target_inj; done).
  reflexivity.
Qed.

(** The loop over the names: either every icon can be written and all
    are, or the loop stops at the first one that cannot, with the
    icons before it written and the ones after it not touched. *)
Lemma loop_spec (bs : list Z) (names : list string) (w : world) :
  names ⊆ manifest → NoDup names →
  ((∀ x, x ∈ names → can_write fault bs (fs w) x)
   ∧ for_each names (write_icon fault bs) w
     = (Ok tt, World (with_icons bs names (fs w)) (stdout w)
                     (calls w ++ flat_map (icon_calls bs) names)
                     (argv w) (environ w)))
  ∨ (∃ pre x post en m' cs,
       names = pre ++ x :: post
       ∧ (∀ y, y ∈ pre → can_write fault bs (fs w) y)
       ∧ ¬ can_write fault bs (fs w) x
       ∧ for_each names (write_icon fault bs) w
         = (Raise (OSError en (target x)),
            World m' (stdout w)
                  (calls w ++ flat_map (icon_calls bs) pre ++ cs)
                  (argv w) (environ w))
       ∧ ((m' = with_icons bs pre (fs w) ∧ cs = [SysOpen (target x)])
          ∨ (m' = <[target x := File []]> (with_icons bs pre (fs w))
             ∧ cs = icon_calls bs x))).
Proof.
  revert w. induction names as [|x names IH]; intros w Hsub Hnd.
  { left. split; [intros ? []%elem_of_nil |].
    cbn. rewrite app_nil_r. by rewrite <- world_eta. }
  apply NoDup_cons in Hnd as [Hx Hnd].
  assert (Hxm : x ∈ manifest) by (apply Hsub; left).
  assert (Hsub' : names ⊆ manifest).
  { intros y Hy. apply Hsub. by right. }
  destruct (write_icon_spec bs x w Hxm)
    as [[Hcan Heq] | [Hcan (en & m' & cs & Heq & Hm')]].
  - rewrite (for_each_cons_ok (write_icon fault bs) x names w _ Heq).
    set (w1 := World (<[target x:=File bs]> (fs w)) (stdout w)
                     (calls w ++ icon_calls bs x) (argv w) (environ w)).
    destruct (IH w1 Hsub' Hnd)
      as [[Hall Hl] | (pre & y & post & en & m' & cs
                        & -> & Hpre & Hy & Hl & Hm')];
      subst w1; cbn [fs stdout calls argv environ] in *.
    + left. split.
      * intros y [-> | Hy]%elem_of_cons; [done |].
        apply (can_write_insert bs (fs w) x y (File bs)); [| by apply Hall].
        intros ->. done.
      * rewrite Hl. cbn [flat_map with_icons foldl].
        by rewrite <- !app_assoc.
    + right. exists (x :: pre), y, post, en, m', cs.
      assert (Hxy : x ≠ y).
      { intros ->. apply Hx. apply elem_of_app. right. left. }
      split; [done |]. split.
      { intros z [-> | Hz]%elem_of_cons; [done |].
        apply (can_write_insert bs (fs w) x z (File bs)); [| by apply Hpre].
        intros ->. apply Hx. apply elem_of_app. by left. }
      split.
      { intros Hc. apply Hy. by apply can_write_insert. }
      split; [| exact Hm'].
      rewrite Hl. cbn [flat_map]. by rewrite <- !app_assoc.
  - right. exists [], x, names, en, m', cs.
    split; [done |]. split; [intros ? []%elem_of_nil |].
    split; [done |]. split; [| exact Hm'].
    by rewrite (for_each_cons_raise (write_icon fault bs) x names w _ _ Heq).
Qed.

(** [os.makedirs("icons", exist_ok=True)] is one [mkdir] and, when
    that fails, one [stat]. *)
Lemma makedirs_icons_unfold :
  makedirs fault "icons" true
  = (skip;;
     r ← try_ (mkdir_at fault icons_dir);
     match r with
     | Ok _ => skip
     | Raise (OSError e q) =>
         d ← isdir_at icons_dir;
         if (d : bool) then skip else raise (OSError e q)
     | Raise e => raise e
     end).
Proof. reflexivity. Qed.

(** The creation step: it passes and leaves [dir_ready], or it is
    [dir_blocked] and raises on [icons] with the tree as it was. *)
Lemma makedirs_icons_spec (w : world) :
  (∃ m1 cs,
     dir_ready fault (fs w) m1 cs
     ∧ makedirs fault "icons" true w
       = (Ok tt, World m1 (stdout w) (calls w ++ cs) (argv w) (environ w)))
  ∨ (∃ en,
       dir_blocked fault (fs w) en
       ∧ makedirs fault "icons" true w
         = (Raise (OSError en icons_dir),
            World (fs w) (stdout w)
                  (calls w ++ [SysMkdir icons_dir; SysStat icons_dir])
                  (argv w) (environ w))).
Proof.
  rewrite makedirs_icons_unfold.
  unfold dir_ready, dir_blocked, mkdir_at, isdir_at, stat_at. step.
  destruct (fault (SysMkdir icons_dir)) as [e|] eqn:Hf; step;
    rewrite ?walk_icons, ?node_at_icons;
    destruct (fs w !! icons_dir) as [[|c]|] eqn:Hd; step;
    rewrite ?walk_icons, ?node_at_icons, ?Hd; step;
    rewrite <- ?app_assoc; cbn [app].
  - left. eexists _, _. split; [right; done | done].
  - right. exists e. split; [| done]. split; done.
  - right. exists e. split; [| done]. split; done.
  - left. eexists _, _. split; [right; done | done].
  - right. exists EEXIST. split; [| done]. split; [done | eauto].
  - left. eexists _, _. split; [left; done | done].
Qed.

(** A run, step by step. *)
Lemma run_unfold (pr : process) (m : gmap path node) :
  run fault pr m
  = match makedirs fault "icons" true (init pr m) with
    | (Ok _, w1) =>
        match for_each manifest (write_icon fault payload) w1 with
        | (Ok _, w2) => at_exit fault (Ok tt) (add_output confirmation w2)
        | (Raise e, w2) => at_exit fault (Raise e : outcome unit) w2
        end
    | (Raise e, w1) => at_exit fault (Raise e : outcome unit) w1
    end.
Proof.
  unfold run, script. rewrite decode_payload.
  unfold lift, print, mbind, M_bind.
  destruct (makedirs fault "icons" true (init pr m)) as [[[]|e] w1];
    [| reflexivity].
  destruct (for_each manifest (write_icon fault payload) w1)
    as [[[]|e] w2]; reflexivity.
Qed.

(** Every run is one of three: stopped at the creation of [icons],
    stopped at the first icon that cannot be written, or complete, and
    then with the confirmation line on standard output or refused
    there. *)
Lemma run_cases (pr : process) (m : gmap path node) :
  (∃ en,
     dir_blocked fault m en
     ∧ run fault pr m
       = Result 1 (Some (OSError en icons_dir)) m []
                [SysMkdir icons_dir; SysStat icons_dir])
  ∨ (∃ m1 cs1,
       dir_ready fault m m1 cs1
       ∧ (((∀ x, x ∈ manifest → can_write fault payload m1 x)
           ∧ run fault pr m
             = match fault (SysStdout [confirmation]) with
               | None =>
                   Result 0 None (with_icons payload manifest m1)
                          [confirmation]
                          (cs1 ++ flat_map (icon_calls payload) manifest
                           ++ [SysStdout [confirmation]])
               | Some _ =>
                   Result 120 None (with_icons payload manifest m1) []
                          (cs1 ++ flat_map (icon_calls payload) manifest
                           ++ [SysStdout [confirmation]])
               end)
          ∨ (∃ pre x post en m' cs,
               manifest = pre ++ x :: post
               ∧ (∀ y, y ∈ pre → can_write fault payload m1 y)
               ∧ ¬ can_write fault payload m1 x
               ∧ run fault pr m
                 = Result 1 (Some (OSError en (target x))) m' []
                          (cs1 ++ flat_map (icon_calls payload) pre ++ cs)
               ∧ ((m' = with_icons payload pre m1
                   ∧ cs = [SysOpen (target x)])
                  ∨ (m' = <[target x := File []]>
                            (with_icons payload pre m1)
                     ∧ cs = icon_calls payload x))))).
Proof.
  rewrite run_unfold.
  destruct (makedirs_icons_spec (init pr m))
    as [(m1 & cs1 & Hready & ->) | (en & Hblocked & ->)];
    cbn [init fs stdout calls argv environ app] in *.
  2: { left. exists en. done. }
  right. exists m1, cs1. split; [done |].
  set (w1 := World m1 [] cs1 (proc_argv pr) (proc_environ pr)).
  destruct (loop_spec payload manifest w1 (reflexivity _) manifest_NoDup)
    as [[Hall ->] | (pre & x & post & en & m' & cs & Hm & Hpre & Hx & -> & Hm')];
    subst w1; unfold at_exit, add_output;
    cbn [fs stdout calls argv environ app exit_code uncaught] in *.
  - left. split; [done |]. rewrite <- !app_assoc. done.
  - right. exists pre, x, post, en, m', cs. done.
Qed.

(** *** Looking into the tree after the loop *)

Lemma with_icons_lookup (bs : list Z) (names : list string)
    (m : gmap path node) (q : path) :
  with_icons bs names m !! q
  = if decide (q ∈ map target names) then Some (File bs) else m !! q.
Proof.
  revert m. induction names as [|y names IH]; intros m.
  { cbn. case_decide as H; [by apply elem_of_nil in H | done]. }
  change (with_icons bs (y :: names) m)
    with (with_icons bs names (<[target y := File bs]> m)).
  rewrite IH. cbn [map].
  destruct (decide (q ∈ map target names)) as [Hin|Hnin].
  - rewrite decide_True; [done | by right].
  - rewrite lookup_insert. destruct (decide (target y = q)) as [<-|Hne].
    + rewrite decide_True; [done | by left].
    + rewrite decide_False; [done |].
      intros [->|?]%elem_of_cons; done.
Qed.

Lemma with_icons_target (bs : list Z) (names : list string)
    (m : gmap path node) (x : string) :
  x ∈ names → with_icons bs names m !! target x = Some (File bs).
Proof.
  intros Hx. rewrite with_icons_lookup.
  case_decide as H; [done |]. exfalso. apply H.
  apply list_elem_of_fmap. eauto.
Qed.

Lemma with_icons_other (bs : list Z) (names : list string)
    (m : gmap path node) (q : path) :
  (∀ x, x ∈ names → q ≠ target x) →
  with_icons bs names m !! q = m !! q.
Proof.
  intros Hq. rewrite with_icons_lookup.
  case_decide as H; [| done].
  apply list_elem_of_fmap in H as (x & -> & Hx). by destruct (Hq x Hx).
Qed.

Lemma with_icons_dir (bs : list Z) (names : list string)
    (m : gmap path node) :
  with_icons bs names m !! icons_dir = m !! icons_dir.
Proof. apply with_icons_other. intros; discriminate. Qed.

Lemma dir_ready_dir (m m1 : gmap path node) (cs : list syscall) :
  dir_ready fault m m1 cs → m1 !! icons_dir = Some Dir.
Proof.
  intros [(_ & _ & -> & _) | (? & -> & _)]; [| done].
  apply lookup_insert_eq.
Qed.

Lemma dir_ready_other (m m1 : gmap path node) (cs : list syscall)
    (q : path) :
  dir_ready fault m m1 cs → q ≠ icons_dir → m1 !! q = m !! q.
Proof.
  intros [(_ & _ & -> & _) | (? & -> & _)] Hq; [| done].
  by rewrite lookup_insert_ne.
Qed.

(** *** Nothing consults the process *)
























End Steps.

(** Splits on whether standard output takes the confirmation line. *)
Ltac stdout_cases :=
  try match goal with
      | |- context [match ?f (SysStdout [confirmation]) with _ => _ end] =>
          let H := fresh "Hstdout" in
          destruct (f (SysStdout [confirmation])) eqn:H
      | H0 : context [match ?f (SysStdout [confirmation]) with _ => _ end]
        |- _ =>
          let H := fresh "Hstdout" in
          destruct (f (SysStdout [confirmation])) eqn:H
      end.

(** ** Properties of a run *)

(** C9. Decoding the embedded literal succeeds: it gives the 70 bytes of
    [payload], a non-empty sequence that reads as a PNG file of one
    8-bit RGBA pixel in the three mandatory chunks, and no run ever
    stops with a decoding error. *)
Theorem decode_always_succeeds :
  Base64.b64decode data = Ok payload
  ∧ payload ≠ []
  ∧ length payload = 70%nat
  ∧ Png.read_png payload
    = Some (Png.Image (Png.Header 1 1 8 6 0 0 0)
                      [Png.IHDR; Png.IDAT; Png.IEND]
                      [[255; 0; 0; 127]])
  ∧ ∀ fault pr m,
      error (run fault pr m) ≠ Some ValueError
      ∧ ∀ msg, error (run fault pr m) ≠ Some (BinasciiError msg).
Proof.
  split; [exact decode_payload |]. split; [discriminate |].
  split; [exact payload_length |]. split; [exact payload_png |].
  intros fault pr m.
  destruct (run_cases fault pr m)
    as [(en & _ & Hr)
       | (m1 & cs1 & _ & [[_ Hr]
                         | (pre & x & post & en & m' & cs & _ & _ & _ & Hr & _)])];
    rewrite Hr; stdout_cases;
    cbn [error]; split; try intros msg; discriminate.
Qed.

(** C1. After a successful run each of the four files holds exactly the
    decoded bytes, whatever the tree was before. *)
Theorem icons_hold_payload (fault : syscall → option errno) (pr : process)
    (m : gmap path node) (x : string) :
  status (run fault pr m) = 0 →
  x ∈ manifest →
  Base64.b64decode data = Ok payload
  ∧ components (join "icons" x) = target x
  ∧ files (run fault pr m) !! target x = Some (File payload).
Proof.
  intros Hs Hx. split; [exact decode_payload |].
  split; [by apply join_target |].
  destruct (run_cases fault pr m)
    as [(en & _ & Hr)
       | (m1 & cs1 & _ & [[_ Hr]
                         | (pre & y & post & en & m' & cs & _ & _ & _ & Hr & _)])];
    rewrite Hr in Hs |- *; stdout_cases; cbn [status files] in *;
    try discriminate.
  by apply with_icons_target.
Qed.

Lemma icons_hold_payload_witness :
  files (run no_fault proc0 {[ icons_dir := Dir; target "icon.png" := File [1; 2; 3] ]})
    !! target "icon.png" = Some (File payload).
Proof.
  apply (icons_hold_payload no_fault proc0
           {[ icons_dir := Dir; target "icon.png" := File [1; 2; 3] ]}
           "icon.png").
  - vm_compute. reflexivity.
  - unfold manifest. do 3 right. left.
Defined.

(** C2. A successful run in an empty working directory leaves the
    directory [icons] and in it the four icons and nothing else, each
    icon 70 bytes long (the length of the decoded literal), and has
    printed the confirmation line. *)
Theorem run_in_empty_directory (fault : syscall → option errno)
    (pr : process) :
  status (run fault pr ∅) = 0 →
  files (run fault pr ∅) = fresh_tree
  ∧ files (run fault pr ∅) !! icons_dir = Some Dir
  ∧ (∀ x, x ∈ manifest →
       ∃ c, files (run fault pr ∅) !! target x = Some (File c)
            ∧ length c = length payload ∧ length c = 70%nat)
  ∧ (∀ q, is_Some (files (run fault pr ∅) !! q) →
       q = icons_dir ∨ ∃ x, x ∈ manifest ∧ q = target x)
  ∧ output (run fault pr ∅) = [confirmation].
Proof.
  intros Hs.
  destruct (run_cases fault pr ∅)
    as [(en & _ & Hr)
       | (m1 & cs1 & Hready & [[_ Hr]
                         | (pre & y & post & en & m' & cs & _ & _ & _ & Hr & _)])];
    rewrite Hr in Hs |- *; stdout_cases; cbn [status files output] in *;
    try discriminate.
  destruct Hready as [(_ & _ & -> & _) | (Hd & _)];
    [| by rewrite lookup_empty in Hd].
  assert (Htree : with_icons payload manifest (<[icons_dir:=Dir]> ∅)
                  = fresh_tree).
  { vm_cast_no_check (eq_refl fresh_tree). }
  split; [exact Htree |].
  split; [rewrite with_icons_dir; apply lookup_insert_eq |].
  split.
  { intros x Hx. exists payload. by rewrite with_icons_target. }
  split; [| done].
  intros q [n Hq]. rewrite with_icons_lookup in Hq.
  case_decide as Hin.
  - right. apply list_elem_of_fmap in Hin as (x & -> & Hx). eauto.
  - left. rewrite lookup_insert in Hq. case_decide; [done |].
    by rewrite lookup_empty in Hq.
Qed.

Lemma run_in_empty_directory_witness :
  files (run no_fault proc0 ∅) = fresh_tree
  ∧ output (run no_fault proc0 ∅) = [confirmation].
Proof.
  destruct (run_in_empty_directory no_fault proc0) as (Ht & _ & _ & _ & Ho).
  - vm_compute. reflexivity.
  - split; [exact Ht | exact Ho].
Defined.

(** C5. When a plain file has the name [icons], the run fails with an
    [OSError] on that name ([EEXIST], unless the environment refuses the
    [mkdir] first), having called only [mkdir] and [stat]: no icon is
    opened or written, the tree and with it the file's content are as
    before, and nothing is printed. *)
Theorem plain_file_blocks_run (fault : syscall → option errno)
    (pr : process) (m : gmap path node) (c : list Z) :
  m !! icons_dir = Some (File c) →
  status (run fault pr m) = 1
  ∧ (∃ en, error (run fault pr m) = Some (OSError en icons_dir)
           ∧ (fault (SysMkdir icons_dir) = None → en = EEXIST))
  ∧ trace (run fault pr m) = [SysMkdir icons_dir; SysStat icons_dir]
  ∧ files (run fault pr m) = m
  ∧ files (run fault pr m) !! icons_dir = Some (File c)
  ∧ output (run fault pr m) = [].
Proof.
  intros Hm.
  destruct (run_cases fault pr m)
    as [(en & [_ Hen] & ->) | (m1 & cs1 & Hready & _)].
  - cbn [status error trace files output].
    repeat split; try done.
    exists en. split; [done |]. intros Hf. rewrite Hf in Hen. tauto.
  - destruct Hready as [(Hd & _) | (Hd & _)]; congruence.
Qed.

Lemma plain_file_blocks_run_witness :
  status (run no_fault proc0 {[ icons_dir := File [1; 2; 3] ]}) = 1
  ∧ files (run no_fault proc0 {[ icons_dir := File [1; 2; 3] ]})
    = {[ icons_dir := File [1; 2; 3] ]}.
Proof.
  destruct (plain_file_blocks_run no_fault proc0
              {[ icons_dir := File [1; 2; 3] ]} [1; 2; 3])
    as (Hs & _ & _ & Hf & _).
  - vm_compute. reflexivity.
  - split; [exact Hs | exact Hf].
Defined.





(** C3. A second run right after a successful one, in the same
    environment, succeeds as well and leaves the tree of the first run:
    all four icons present with the same bytes (the files are opened
    with truncation, so the bytes replace the old ones). *)
Theorem second_run_changes_nothing (fault : syscall → option errno)
    (pr pr' : process) (m : gmap path node) :
  status (run fault pr m) = 0 →
  status (run fault pr' (files (run fault pr m))) = 0
  ∧ files (run fault pr' (files (run fault pr m))) = files (run fault pr m)
  ∧ ∀ x, x ∈ manifest →
      files (run fault pr' (files (run fault pr m))) !! target x
      = Some (File payload)
      ∧ files (run fault pr m) !! target x = Some (File payload).
Proof.
  intros Hs.
  destruct (run_cases fault pr m)
    as [(en & _ & Hr)
       | (m1 & cs1 & Hready & [[Hall Hr]
                         | (pre & y & post & en & m' & cs & _ & _ & _ & Hr & _)])];
    rewrite Hr in Hs |- *; stdout_cases; cbn [status files] in *;
    try discriminate.
  clear Hr Hs. set (m2 := with_icons payload manifest m1).
  assert (Hdir : m2 !! icons_dir = Some Dir).
  { unfold m2. rewrite with_icons_dir. by eapply dir_ready_dir. }
  assert (Hcan : ∀ x, x ∈ manifest → can_write fault payload m2 x).
  { intros x Hx. destruct (Hall x Hx) as (Ho & _ & _ & Hw).
    repeat split; try done.
    unfold m2. by rewrite with_icons_target. }
  destruct (run_cases fault pr' m2)
    as [(en & [Hn _] & Hr)
       | (m3 & cs3 & Hready' & [[_ Hr]
                         | (pre & y & post & en & m' & cs & Hm & _ & Hy & Hr & _)])].
  - done.
  - destruct Hready' as [(Hd & _) | (_ & -> & _)]; [congruence |].
    rewrite Hr, Hstdout. cbn [status files].
    assert (Hsame : with_icons payload manifest m2 = m2).
    { apply map_eq. intros q. rewrite with_icons_lookup.
      case_decide as Hin; [| done].
      unfold m2. rewrite with_icons_lookup. by rewrite decide_True. }
    split; [done |]. split; [done |].
    intros x Hx. rewrite Hsame. unfold m2.
    by rewrite with_icons_target.
  - destruct Hready' as [(Hd & _) | (_ & -> & _)]; [congruence |].
    destruct Hy. apply Hcan. rewrite Hm. apply elem_of_app. right. left.
Qed.

Lemma second_run_changes_nothing_witness :
  status (run no_fault proc0 (files (run no_fault proc0 ∅))) = 0
  ∧ files (run no_fault proc0 (files (run no_fault proc0 ∅)))
    = files (run no_fault proc0 ∅).
Proof.
  destruct (second_run_changes_nothing no_fault proc0 proc0 ∅)
    as (Hs & Hf & _).
  - vm_compute. reflexivity.
  - split; [exact Hs | exact Hf].
Defined.

(** C4. When [icons] is missing, the run makes it, unless the
    environment refuses the [mkdir]: then the run stops with that error
    on [icons] and the tree as it was. When [icons] is a directory
    already, the creation step returns without an error and without a
    change, whatever the environment says to the [mkdir], and the run
    goes on to open the first icon. *)
Theorem icons_directory_is_ensured (fault : syscall → option errno)
    (pr : process) (m : gmap path node) :
  (m !! icons_dir = None →
     match fault (SysMkdir icons_dir) with
     | None => files (run fault pr m) !! icons_dir = Some Dir
     | Some e => error (run fault pr m) = Some (OSError e icons_dir)
                 ∧ files (run fault pr m) = m
     end)
  ∧ (m !! icons_dir = Some Dir →
       (∃ w1, makedirs fault "icons" true (init pr m) = (Ok tt, w1)
              ∧ fs w1 = m)
       ∧ files (run fault pr m) !! icons_dir = Some Dir
       ∧ (∀ e, error (run fault pr m) ≠ Some (OSError e icons_dir))
       ∧ SysOpen (target "32x32.png") ∈ trace (run fault pr m)).
Proof.
  split; intros Hm.
  - destruct (run_cases fault pr m)
      as [(en & [_ Hen] & ->) | (m1 & cs1 & Hready & Hrest)].
    + cbn [error files].
      destruct (fault (SysMkdir icons_dir)) as [e|];
        [by subst | by destruct Hen as (_ & c & ?); congruence].
    + destruct Hready as [(_ & Hf & -> & _) | (Hd & _)]; [| congruence].
      rewrite Hf.
      destruct Hrest
        as [[_ ->] | (pre & y & post & en & m' & cs & _ & _ & _ & -> & Hm')];
        stdout_cases; cbn [files].
      1,2: rewrite with_icons_dir; apply lookup_insert_eq.
      destruct Hm' as [[-> _] | [-> _]];
        rewrite ?(lookup_insert_ne _ (target y)) by discriminate;
        rewrite with_icons_dir; apply lookup_insert_eq.
  - split.
    { destruct (makedirs_icons_spec fault (init pr m))
        as [(m1 & cs1 & Hready & ->) | (en & [Hn _] & _)]; [| done].
      destruct Hready as [(Hd & _) | (_ & -> & _)];
        [cbn [init fs] in Hd; congruence |].
      eexists. split; reflexivity. }
    destruct (run_cases fault pr m)
      as [(en & [Hn _] & _) | (m1 & cs1 & Hready & Hrest)]; [done |].
    destruct Hready as [(Hd & _) | (_ & -> & ->)]; [congruence |].
    destruct Hrest
      as [[_ ->] | (pre & y & post & en & m' & cs & Hpre & _ & _ & -> & Hm')];
      stdout_cases; cbn [files error trace].
    1,2: split; [by rewrite with_icons_dir |]; (split; [discriminate |]);
      unfold manifest; cbn [flat_map icon_calls app]; do 2 right; left.
    split.
    { destruct Hm' as [[-> _] | [-> _]];
        rewrite ?(lookup_insert_ne _ (target y)) by discriminate;
        by rewrite with_icons_dir. }
    split; [intros e; discriminate |].
    destruct pre as [|z pre].
    + injection Hpre as <- _. cbn [flat_map app].
      destruct Hm' as [[_ ->] | [_ ->]]; do 2 right; left.
    + injection Hpre as <- _. cbn [flat_map icon_calls app].
      do 2 right. left.
Qed.

Lemma icons_directory_is_ensured_witness :
  files (run no_fault proc0 ∅) !! icons_dir = Some Dir
  ∧ SysOpen (target "32x32.png")
    ∈ trace (run no_fault proc0 {[ icons_dir := Dir ]}).
Proof.
  split.
  - exact (proj1 (icons_directory_is_ensured no_fault proc0 ∅) eq_refl).
  - destruct (icons_directory_is_ensured no_fault proc0
                {[ icons_dir := Dir ]}) as [_ H].
    apply H. vm_compute. reflexivity.
Defined.




(** ** Two environments that answer the calls of a run alike *)

Section Agree.

Variables fault1 fault2 : syscall → option errno.












End Agree.




(** ** The run over hard links *)

Section LinkSteps.

Variable fault : syscall → option errno.

Ltac lstep :=
  unfold Links.attempt, Links.call, Links.get_disk, Links.put_disk,
    Links.try_, Links.close, Links.lift, Links.write, Links.skip,
    Links.raise, mbind, Links.M_bind, mret, Links.M_ret, Links.add_call,
    Links.set_disk, Links.add_output;
  cbn [Links.disk Links.stdout Links.calls Links.hpath Links.hino
       Links.hpos Links.names Links.inodes fst snd].

Lemma frame_refl (t : Links.tree) : frame t t.
Proof.
  repeat split; try done.
  intros x i Hx Hn. left. by exists x.
Qed.

Lemma frame_mkdir (t0 : Links.tree) (ns : gmap path Links.entry)
    (bytes : gmap nat (list Z)) :
  frame t0 (Links.Tree ns bytes) → ns !! icons_dir = None →
  frame t0 (Links.Tree (<[icons_dir := Links.EDir]> ns) bytes).
Proof.
  intros (F1 & F2 & F3 & F4 & F5 & F6) Hd.
  cbn [Links.names Links.inodes] in *.
  repeat split; cbn [Links.names Links.inodes]; try done.
  - intros q Hq Hx. rewrite lookup_insert_ne by done. by apply F1.
  - intros e He. rewrite (F2 e He) in Hd. discriminate.
  - intros x i Hx Hn. rewrite lookup_insert_ne by discriminate.
    by apply F3.
  - intros x i Hx. rewrite lookup_insert_ne by discriminate. by apply F5.
Qed.

Lemma frame_store (t0 : Links.tree) (ns : gmap path Links.entry)
    (bytes : gmap nat (list Z)) (x : string) (i : nat) (c : list Z) :
  frame t0 (Links.Tree ns bytes) → x ∈ manifest →
  ns !! target x = Some (Links.EFile i) →
  frame t0 (Links.Tree ns (<[i := c]> bytes)).
Proof.
  intros (F1 & F2 & F3 & F4 & F5 & F6) Hx Hn.
  cbn [Links.names Links.inodes] in *.
  repeat split; cbn [Links.names Links.inodes]; try done.
  - intros j cj Hj Hnot. rewrite lookup_insert_ne; [by apply F4 |].
    intros <-. destruct (F5 x i Hx Hn) as [Hi | Hi]; [done | congruence].
  - intros j Hj. destruct (decide (i = j)) as [<- | Hne].
    + rewrite lookup_insert_eq. eauto.
    + rewrite lookup_insert_ne by done. by apply F6.
Qed.

Lemma frame_create (t0 : Links.tree) (ns : gmap path Links.entry)
    (bytes : gmap nat (list Z)) (x : string) (i : nat) (c : list Z) :
  frame t0 (Links.Tree ns bytes) → x ∈ manifest →
  ns !! target x = None →
  bytes !! i = None →
  frame t0 (Links.Tree (<[target x := Links.EFile i]> ns)
                       (<[i := c]> bytes)).
Proof.
  intros (F1 & F2 & F3 & F4 & F5 & F6) Hx Hn Hi.
  cbn [Links.names Links.inodes] in *.
  assert (Hfree : Links.inodes t0 !! i = None).
  { destruct (Links.inodes t0 !! i) as [c0|] eqn:H0; [| done].
    destruct (F6 i) as [c1 Hc1]; [eauto | congruence]. }
  repeat split; cbn [Links.names Links.inodes].
  - intros q Hq Hq'. rewrite lookup_insert_ne by (intros <-; by eapply Hq').
    by apply F1.
  - intros e He. rewrite lookup_insert_ne by discriminate. by apply F2.
  - intros y j Hy Hj. destruct (decide (x = y)) as [<- | Hne].
    + rewrite (F3 x j Hx Hj) in Hn. discriminate.
    + rewrite lookup_insert_ne by (intros ?%target_inj; done).
      by apply F3.
  - intros j cj Hj Hnot. rewrite lookup_insert_ne by congruence.
    by apply F4.
  - intros y j Hy. destruct (decide (x = y)) as [<- | Hne].
    + rewrite lookup_insert_eq. intros [= <-]. by right.
    + rewrite lookup_insert_ne by (intros ?%target_inj; done).
      by apply F5.
  - intros j Hj. destruct (decide (i = j)) as [<- | Hne].
    + rewrite lookup_insert_eq. eauto.
    + rewrite lookup_insert_ne by done. by apply F6.
Qed.

Lemma links_walk_target (t : Links.tree) (x : string) :
  Links.walk t [] (target x)
  = match Links.names t !! icons_dir with
    | Some Links.EDir => None
    | Some (Links.EFile _) => Some ENOTDIR
    | None => Some ENOENT
    end.
Proof. reflexivity. Qed.

Lemma links_walk_icons (t : Links.tree) :
  Links.walk t [] icons_dir = None.
Proof. reflexivity. Qed.

Lemma links_entry_at_icons (t : Links.tree) :
  Links.entry_at t icons_dir = Links.names t !! icons_dir.
Proof. reflexivity. Qed.

(** Writing one icon keeps the frame; its calls are calls on that
    icon and it prints nothing. *)
Lemma links_write_icon_frame (t0 : Links.tree) (bs : list Z) (x : string)
    (w w' : Links.world) (r : outcome unit) :
  x ∈ manifest →
  Links.write_icon fault bs x w = (r, w') →
  frame t0 (Links.disk w) →
  frame t0 (Links.disk w')
  ∧ Links.stdout w' = Links.stdout w
  ∧ ∃ cs, Links.calls w' = Links.calls w ++ cs ∧ cs ⊆ icon_calls bs x.
Proof.
  intros Hx Hrun Hf. revert Hrun. destruct w as [[ns bytes] out cs0].
  cbn [Links.disk Links.stdout Links.calls] in *.
  unfold Links.write_icon, Links.with_open, Links.open_wb.
  rewrite (join_target x Hx). lstep.
  assert (H1 : [SysOpen (target x)] ⊆ icon_calls bs x).
  { intros c ->%list_elem_of_singleton. left. }
  destruct (fault (SysOpen (target x))) as [e|] eqn:Ho; lstep.
  { intros [= <- <-]. cbn. eauto. }
  rewrite links_walk_target. cbn [Links.names].
  change (Links.entry_at (Links.Tree ns bytes) (target x))
    with (ns !! target x).
  destruct (ns !! icons_dir) as [[|j]|] eqn:Hd;
    try (intros [= <- <-]; cbn; eauto).
  destruct (ns !! target x) as [[|i]|] eqn:Hn.
  { intros [= <- <-]. cbn. eauto. }
  all: lstep.
  all: destruct (fault (SysWrite (target x) bs)) as [e|] eqn:Hw; lstep.
  all: rewrite ?lookup_insert_eq; lstep.
  all: intros [= <- <-]; cbn [Links.disk Links.stdout Links.calls].
  all: rewrite <- ?app_assoc; cbn [app].
  all: (split; [| split; [done | eexists; split; [done |]; done]]).
  - by apply (frame_store t0 ns bytes x).
  - apply (frame_store t0 ns _ x); [| done | done].
    by apply (frame_store t0 ns bytes x).
  - apply (frame_create t0 ns bytes x); try done.
    apply not_elem_of_dom, is_fresh.
  - apply (frame_store t0 _ _ x); [| done | apply lookup_insert_eq].
    apply (frame_create t0 ns bytes x); try done.
    apply not_elem_of_dom, is_fresh.
Qed.

Lemma links_loop_frame (t0 : Links.tree) (bs : list Z) (l : list string)
    (w w' : Links.world) (r : outcome unit) :
  l ⊆ manifest →
  Links.for_each l (Links.write_icon fault bs) w = (r, w') →
  frame t0 (Links.disk w) →
  frame t0 (Links.disk w')
  ∧ Links.stdout w' = Links.stdout w
  ∧ ∃ cs, Links.calls w' = Links.calls w ++ cs
          ∧ ∀ c, c ∈ cs → ∃ x, x ∈ manifest ∧ c ∈ icon_calls bs x.
Proof.
  revert w. induction l as [|x l IH]; intros w Hsub Hrun Hf.
  { injection Hrun as <- <-. split; [done |]. split; [done |].
    exists []. rewrite app_nil_r. split; [done |].
    intros c []%elem_of_nil. }
  assert (Hx : x ∈ manifest) by (apply Hsub; left).
  assert (Hsub' : l ⊆ manifest) by (intros y Hy; apply Hsub; by right).
  cbn [Links.for_each] in Hrun. unfold mbind, Links.M_bind in Hrun.
  destruct (Links.write_icon fault bs x w) as [r1 w1] eqn:H1.
  destruct (links_write_icon_frame t0 bs x w w1 r1 Hx H1 Hf)
    as (Hf1 & Hs1 & cs1 & Hc1 & Hcs1).
  destruct r1 as [[]|e].
  - destruct (IH w1 Hsub' Hrun Hf1) as (Hf2 & Hs2 & cs2 & Hc2 & Hcs2).
    split; [done |]. split; [congruence |].
    exists (cs1 ++ cs2). split; [rewrite Hc2, Hc1; by rewrite app_assoc |].
    intros c [Hc | Hc]%elem_of_app; [| by apply Hcs2].
    exists x. split; [done | by apply Hcs1].
  - injection Hrun as <- <-. split; [done |]. split; [done |].
    exists cs1. split; [done |]. intros c Hc. exists x. split; [done |].
    by apply Hcs1.
Qed.

Lemma links_makedirs_unfold :
  Links.makedirs fault "icons" true
  = (Links.skip;;
     r ← Links.try_ (Links.mkdir_at fault icons_dir);
     match r with
     | Ok _ => Links.skip
     | Raise (OSError e q) =>
         d ← Links.isdir_at icons_dir;
         if (d : bool) then Links.skip else Links.raise (OSError e q)
     | Raise e => Links.raise e
     end).
Proof. reflexivity. Qed.

Lemma links_makedirs_frame (t0 : Links.tree) (w w' : Links.world)
    (r : outcome unit) :
  Links.makedirs fault "icons" true w = (r, w') →
  frame t0 (Links.disk w) →
  frame t0 (Links.disk w')
  ∧ Links.stdout w' = Links.stdout w
  ∧ ∃ cs, Links.calls w' = Links.calls w ++ cs
          ∧ cs ⊆ [SysMkdir icons_dir; SysStat icons_dir].
Proof.
  intros Hrun Hf. revert Hrun. destruct w as [[ns bytes] out cs0].
  cbn [Links.disk Links.stdout Links.calls] in *.
  rewrite links_makedirs_unfold.
  unfold Links.mkdir_at, Links.isdir_at, Links.stat_at. lstep.
  assert (H1 : [SysMkdir icons_dir] ⊆ [SysMkdir icons_dir; SysStat icons_dir]).
  { intros c ->%list_elem_of_singleton. left. }
  destruct (fault (SysMkdir icons_dir)) as [e|] eqn:Hm; lstep;
    rewrite ?links_walk_icons, ?links_entry_at_icons; cbn [Links.names];
    destruct (ns !! icons_dir) as [[|j]|] eqn:Hd; lstep;
    rewrite ?links_walk_icons, ?links_entry_at_icons; cbn [Links.names];
    rewrite ?Hd; lstep;
    intros [= <- <-]; cbn [Links.disk Links.stdout Links.calls];
    rewrite <- ?app_assoc; cbn [app];
    (split; [| split; [done | eexists; split; [done |]; done]]);
    try done.
  by apply frame_mkdir.
Qed.

Lemma links_run_unfold (t : Links.tree) :
  Links.run fault t
  = match Links.makedirs fault "icons" true (Links.init t) with
    | (Ok _, w1) =>
        match Links.for_each manifest (Links.write_icon fault payload) w1 with
        | (Ok _, w2) =>
            Links.at_exit fault (Ok tt) (Links.add_output confirmation w2)
        | (Raise e, w2) => Links.at_exit fault (Raise e : outcome unit) w2
        end
    | (Raise e, w1) => Links.at_exit fault (Raise e : outcome unit) w1
    end.
Proof.
  unfold Links.run, Links.script. rewrite decode_payload.
  unfold Links.lift, Links.print, mbind, Links.M_bind.
  destruct (Links.makedirs fault "icons" true (Links.init t))
    as [[[]|e] w1]; [| reflexivity].
  destruct (Links.for_each manifest (Links.write_icon fault payload) w1)
    as [[[]|e] w2]; reflexivity.
Qed.

(** The tree a run ends with is within the frame of the tree it
    started from, and its calls are calls of the script. *)
Lemma links_run_frame (t : Links.tree) :
  frame t (Links.files (Links.run fault t))
  ∧ ∀ c, c ∈ Links.trace (Links.run fault t) → script_call c.
Proof.
  rewrite links_run_unfold.
  destruct (Links.makedirs fault "icons" true (Links.init t))
    as [r1 w1] eqn:H1.
  destruct (links_makedirs_frame t _ _ _ H1 (frame_refl t))
    as (Hf1 & Hs1 & cs1 & Hc1 & Hcs1).
  cbn [Links.init Links.stdout Links.calls app] in Hs1, Hc1.
  assert (Hdir : ∀ c, c ∈ cs1 → script_call c).
  { intros c Hc. apply Hcs1 in Hc. unfold script_call.
    apply elem_of_cons in Hc as [-> | Hc]; [eauto |].
    apply list_elem_of_singleton in Hc as ->. eauto. }
  destruct r1 as [[]|e].
  2: { unfold Links.at_exit. rewrite Hs1, Hc1. cbn. done. }
  destruct (Links.for_each manifest (Links.write_icon fault payload) w1)
    as [r2 w2] eqn:H2.
  destruct (links_loop_frame t payload manifest w1 w2 r2 (reflexivity _)
              H2 Hf1) as (Hf2 & Hs2 & cs2 & Hc2 & Hcs2).
  assert (Hall : ∀ c, c ∈ Links.calls w2 → script_call c).
  { intros c. rewrite Hc2, Hc1. intros [Hc | Hc]%elem_of_app; [eauto |].
    unfold script_call. eauto. }
  destruct r2 as [[]|e]; unfold Links.at_exit, Links.add_output;
    cbn [Links.stdout Links.disk Links.calls]; rewrite Hs2, Hs1;
    cbn [app]; [| done].
  destruct (fault (SysStdout [confirmation]));
    cbn [Links.files Links.trace]; (split; [done |]);
    intros c [Hc | ->%list_elem_of_singleton]%elem_of_app; eauto;
    unfold script_call; eauto.
Qed.

End LinkSteps.

(** C10, as the code has it. Over a tree in which a file can have more
    than one name, a run leaves every name other than [icons] and the
    four icons as it was, and what [icons] or an icon path named it
    still names, the icon files being overwritten in place. The bytes
    of a file change only if one of the four icon paths named that file
    when the run began: every other path than those five that showed a
    node shows the same node afterwards, unless it is a second name, a
    hard link, of such a file. The calls of the run are the [mkdir] and
    the [stat] of [icons], the [open], [write] and [close] of the four
    icons and the write of the confirmation line; none reads or removes
    anything. *)
Theorem only_icon_files_change (fault : syscall → option errno)
    (t : Links.tree) :
  (∀ q, q ≠ icons_dir → (∀ x, x ∈ manifest → q ≠ target x) →
     Links.names (Links.files (Links.run fault t)) !! q
     = Links.names t !! q)
  ∧ (∀ e, Links.names t !! icons_dir = Some e →
       Links.names (Links.files (Links.run fault t)) !! icons_dir = Some e)
  ∧ (∀ x i, x ∈ manifest →
       Links.names t !! target x = Some (Links.EFile i) →
       Links.names (Links.files (Links.run fault t)) !! target x
       = Some (Links.EFile i))
  ∧ (∀ i c, Links.inodes t !! i = Some c → ¬ icon_inode t i →
       Links.inodes (Links.files (Links.run fault t)) !! i = Some c)
  ∧ (∀ q n, Links.read t q = Some n →
       q ≠ icons_dir → (∀ x, x ∈ manifest → q ≠ target x) →
       (∀ i, Links.names t !! q = Some (Links.EFile i) → ¬ icon_inode t i) →
       Links.read (Links.files (Links.run fault t)) q = Some n)
  ∧ (∀ c, c ∈ Links.trace (Links.run fault t) →
       c = SysMkdir icons_dir ∨ c = SysStat icons_dir
       ∨ (∃ x, x ∈ manifest ∧ c ∈ icon_calls payload x)
       ∨ c = SysStdout [confirmation]).
Proof.
  destruct (links_run_frame fault t) as [(F1 & F2 & F3 & F4 & _) Hc].
  repeat split; try done.
  intros q n Hn Hq Hx Hi. unfold Links.read in *. rewrite F1 by done.
  destruct (Links.names t !! q) as [[|i]|] eqn:Hq'; [done | | done].
  destruct (Links.inodes t !! i) as [c|] eqn:Hc'; [| done].
  rewrite (F4 i c Hc'); [done |]. by apply Hi.
Qed.

(** Against C10 as the specification words it: [backup.png], a path
    that is neither [icons] nor one of the four icon paths, is a hard
    link of [icons/icon.png]; the run succeeds, and the three bytes
    that [backup.png] held are replaced by the image. *)
Lemma hard_link_is_overwritten :
  Links.read linked_tree ["backup.png"] = Some (File [1; 2; 3])
  ∧ Links.status (Links.run no_fault linked_tree) = 0
  ∧ Links.read (Links.files (Links.run no_fault linked_tree)) ["backup.png"]
    = Some (File payload)
  ∧ ¬ (∀ (fault : syscall → option errno) (t : Links.tree) (q : path),
         q ≠ icons_dir → (∀ x, x ∈ manifest → q ≠ target x) →
         Links.read (Links.files (Links.run fault t)) q = Links.read t q).
Proof.
  assert (H1 : Links.read linked_tree ["backup.png"] = Some (File [1; 2; 3]))
    by (vm_compute; reflexivity).
  assert (H2 : Links.read (Links.files (Links.run no_fault linked_tree))
                 ["backup.png"] = Some (File payload))
    by (vm_compute; reflexivity).
  split; [done |]. split; [vm_compute; reflexivity |]. split; [done |].
  intros H.
  specialize (H no_fault linked_tree ["backup.png"]).
  rewrite H1, H2 in H.
  assert (Some (File payload) = Some (File [1; 2; 3])) as [=].
  apply H; [discriminate |]. intros x _. discriminate.
Qed.

(** ** A successful run over hard links *)

Section LinkSuccess.

Variable fault : syscall → option errno.

Ltac lstep :=
  unfold Links.attempt, Links.call, Links.get_disk, Links.put_disk,
    Links.try_, Links.close, Links.lift, Links.write, Links.skip,
    Links.raise, mbind, Links.M_bind, mret, Links.M_ret, Links.add_call,
    Links.set_disk, Links.add_output;
  cbn [Links.disk Links.stdout Links.calls Links.hpath Links.hino
       Links.hpos Links.names Links.inodes fst snd].

Lemma keeps_names_refl (bs : list Z) (t : Links.tree) : keeps_names bs t t.
Proof. by split. Qed.

Lemma keeps_names_trans (bs : list Z) (t1 t2 t3 : Links.tree) :
  keeps_names bs t1 t2 → keeps_names bs t2 t3 → keeps_names bs t1 t3.
Proof. intros [H1 H2] [H3 H4]. split; eauto. Qed.

Lemma icon_holds_keeps (bs : list Z) (t t' : Links.tree) (x : string) :
  keeps_names bs t t' → icon_holds bs t x → icon_holds bs t' x.
Proof. intros [H1 H2] (i & Hn & Hi). exists i. eauto. Qed.

(** An icon that is written holds the bytes afterwards, in the inode it
    had if it was there; the names stay and what held the bytes holds
    them still. *)
Lemma links_write_icon_ok (bs : list Z) (x : string) (w w' : Links.world) :
  x ∈ manifest →
  Links.write_icon fault bs x w = (Ok tt, w') →
  icon_holds bs (Links.disk w') x
  ∧ keeps_names bs (Links.disk w) (Links.disk w').
Proof.
  intros Hx. destruct w as [[ns bytes] out cs0].
  cbn [Links.disk Links.stdout Links.calls] in *.
  unfold Links.write_icon, Links.with_open, Links.open_wb.
  rewrite (join_target x Hx). lstep.
  destruct (fault (SysOpen (target x))) as [e|] eqn:Ho; lstep;
    [discriminate |].
  rewrite links_walk_target. cbn [Links.names].
  change (Links.entry_at (Links.Tree ns bytes) (target x))
    with (ns !! target x).
  destruct (ns !! icons_dir) as [[|j]|] eqn:Hd; try discriminate.
  destruct (ns !! target x) as [[|i]|] eqn:Hn; [discriminate | |].
  all: lstep.
  all: destruct (fault (SysWrite (target x) bs)) as [e|] eqn:Hw; lstep.
  all: rewrite ?lookup_insert_eq; lstep; try discriminate.
  all: rewrite ?insert_insert_eq, ?drop_nil, ?app_nil_r; cbn [take app].
  all: intros [= <-]; cbn [Links.disk]; unfold icon_holds, keeps_names;
    cbn [Links.names Links.inodes].
  - split; [exists i; by rewrite lookup_insert_eq |].
    split; [done |]. intros k Hk.
    destruct (decide (i = k)) as [<- | Hne];
      [by rewrite lookup_insert_eq | by rewrite lookup_insert_ne].
  - set (i := fresh (dom bytes)).
    assert (Hi : bytes !! i = None) by apply not_elem_of_dom, is_fresh.
    split; [exists i; by rewrite !lookup_insert_eq |]. split.
    + intros q e Hq. rewrite lookup_insert_ne; [done |]. congruence.
    + intros k Hk. rewrite lookup_insert_ne; [done |]. congruence.
Qed.

Lemma links_loop_ok (bs : list Z) (l : list string) (w w' : Links.world) :
  l ⊆ manifest →
  Links.for_each l (Links.write_icon fault bs) w = (Ok tt, w') →
  (∀ x, x ∈ l → icon_holds bs (Links.disk w') x)
  ∧ keeps_names bs (Links.disk w) (Links.disk w').
Proof.
  revert w. induction l as [|x l IH]; intros w Hsub Hrun.
  { injection Hrun as <-. split; [intros x []%elem_of_nil |].
    apply keeps_names_refl. }
  assert (Hx : x ∈ manifest) by (apply Hsub; left).
  assert (Hsub' : l ⊆ manifest) by (intros y Hy; apply Hsub; by right).
  cbn [Links.for_each] in Hrun. unfold mbind, Links.M_bind in Hrun.
  destruct (Links.write_icon fault bs x w) as [[[]|e] w1] eqn:H1;
    [| discriminate].
  destruct (links_write_icon_ok bs x w w1 Hx H1) as [Hh1 Hk1].
  destruct (IH w1 Hsub' Hrun) as [Hh2 Hk2].
  split; [| by eapply keeps_names_trans].
  intros y [-> | Hy]%elem_of_cons; [| by apply Hh2].
  by eapply icon_holds_keeps.
Qed.

Lemma links_makedirs_ok (bs : list Z) (w w' : Links.world)
    (r : outcome unit) :
  Links.makedirs fault "icons" true w = (r, w') →
  keeps_names bs (Links.disk w) (Links.disk w').
Proof.
  destruct w as [[ns bytes] out cs0].
  cbn [Links.disk Links.stdout Links.calls] in *.
  rewrite links_makedirs_unfold.
  unfold Links.mkdir_at, Links.isdir_at, Links.stat_at. lstep.
  destruct (fault (SysMkdir icons_dir)) as [e|] eqn:Hm; lstep;
    rewrite ?links_walk_icons, ?links_entry_at_icons; cbn [Links.names];
    destruct (ns !! icons_dir) as [[|j]|] eqn:Hd; lstep;
    rewrite ?links_walk_icons, ?links_entry_at_icons; cbn [Links.names];
    rewrite ?Hd; lstep;
    intros [= <- <-]; cbn [Links.disk]; try apply keeps_names_refl.
  split; cbn [Links.names Links.inodes]; [| done].
  intros q e Hq. rewrite lookup_insert_ne; [done |]. congruence.
Qed.

(** What a run that ends with status 0 leaves: every icon holds the
    payload, every name of the tree is still there and names what it
    named. *)
Lemma links_run_ok (t : Links.tree) :
  Links.status (Links.run fault t) = 0 →
  (∀ x, x ∈ manifest →
     icon_holds payload (Links.files (Links.run fault t)) x)
  ∧ keeps_names payload t (Links.files (Links.run fault t)).
Proof.
  rewrite links_run_unfold.
  destruct (Links.makedirs fault "icons" true (Links.init t))
    as [r1 w1] eqn:H1.
  pose proof (links_makedirs_ok payload _ _ _ H1) as Hk1.
  destruct (links_makedirs_frame fault t _ _ _ H1 (frame_refl t))
    as (_ & Hs1 & _).
  cbn [Links.init Links.stdout Links.disk] in Hs1, Hk1.
  destruct r1 as [[]|e].
  2: { unfold Links.at_exit. rewrite Hs1. cbn. discriminate. }
  destruct (Links.for_each manifest (Links.write_icon fault payload) w1)
    as [r2 w2] eqn:H2.
  destruct (links_loop_frame fault t payload manifest w1 w2 r2
              (reflexivity _) H2) as (_ & Hs2 & _).
  { destruct (links_makedirs_frame fault t _ _ _ H1 (frame_refl t))
      as (Hf & _). exact Hf. }
  destruct r2 as [[]|e].
  2: { unfold Links.at_exit. rewrite Hs2, Hs1. cbn. discriminate. }
  destruct (links_loop_ok payload manifest w1 w2 (reflexivity _) H2)
    as [Hh Hk2].
  unfold Links.at_exit, Links.add_output.
  cbn [Links.stdout Links.disk Links.calls]. rewrite Hs2, Hs1. cbn [app].
  destruct (fault (SysStdout [confirmation])); cbn [Links.status Links.files];
    [discriminate |].
  intros _. split; [done | by eapply keeps_names_trans].
Qed.

End LinkSuccess.

(** X14. Existing icon files are overwritten in place. After a run
    that ends with status 0, each of the four icon paths shows the
    decoded bytes, and so does every other name, wherever it is in the
    working directory, of a file that an icon path named when the run
    began: a hard link of an icon follows the icon. *)
Theorem hard_links_follow (fault : syscall → option errno)
    (t : Links.tree) :
  Links.status (Links.run fault t) = 0 →
  (∀ x, x ∈ manifest →
     Links.read (Links.files (Links.run fault t)) (target x)
     = Some (File payload))
  ∧ (∀ x q i, x ∈ manifest →
       Links.names t !! target x = Some (Links.EFile i) →
       Links.names t !! q = Some (Links.EFile i) →
       Links.names (Links.files (Links.run fault t)) !! q
       = Some (Links.EFile i)
       ∧ Links.read (Links.files (Links.run fault t)) q
         = Some (File payload)).
Proof.
  intros Hs. destruct (links_run_ok fault t Hs) as [Hh [Hk _]].
  split.
  - intros x Hx. destruct (Hh x Hx) as (i & Hn & Hi).
    unfold Links.read. by rewrite Hn, Hi.
  - intros x q i Hx Hn Hq. destruct (Hh x Hx) as (i' & Hn' & Hi').
    rewrite (Hk _ _ Hn) in Hn'. injection Hn' as <-.
    split; [by apply Hk |]. unfold Links.read.
    by rewrite (Hk _ _ Hq), Hi'.
Qed.

Lemma hard_links_follow_witness :
  Links.read (Links.files (Links.run no_fault linked_tree)) ["backup.png"]
  = Some (File payload).
Proof.
  apply (hard_links_follow no_fault linked_tree) with (x := "icon.png")
                                                      (i := 0%nat).
  - vm_compute. reflexivity.
  - unfold manifest. do 3 right. left.
  - vm_compute. reflexivity.
  - vm_compute. reflexivity.
Defined.

(** ** Where and why a run stops *)

Section Stops.

Variable fault : syscall → option errno.

Ltac stepping :=
  unfold attempt, call, get_fs, put_fs, try_, close, lift, write, skip,
    raise, mbind, M_bind, mret, M_ret, add_call, set_fs, add_output;
  cbn [fs stdout calls argv environ hpath hpos fst snd].

(** An icon that cannot be written: the step raises at the [open], with
    the tree as it was, or at the [write], with the icon emptied. *)
Lemma write_icon_stop (bs : list Z) (x : string) (w : world) :
  x ∈ manifest →
  ¬ can_write fault bs (fs w) x →
  ∃ en,
    (open_blocked fault (fs w) x en
     ∧ write_icon fault bs x w
       = (Raise (OSError en (target x)),
          World (fs w) (stdout w) (calls w ++ [SysOpen (target x)])
                (argv w) (environ w)))
    ∨ (write_blocked fault bs (fs w) x en
       ∧ write_icon fault bs x w
         = (Raise (OSError en (target x)),
            World (<[target x := File []]> (fs w)) (stdout w)
                  (calls w ++ icon_calls bs x) (argv w) (environ w))).
Proof.
  intros Hx Hn.
  unfold can_write, open_blocked, write_blocked, write_icon, with_open,
    open_wb in *.
  rewrite (join_target x Hx). stepping.
  destruct (fault (SysOpen (target x))) as [e|] eqn:Ho; stepping.
  { exists e. left. done. }
  rewrite walk_target, node_at_target.
  destruct (fs w !! icons_dir) as [[|c]|] eqn:Hd;
    [| exists ENOTDIR; left; done | exists ENOENT; left; done].
  destruct (fs w !! target x) as [[|c']|] eqn:Ht.
  { exists EISDIR. left. done. }
  all: stepping.
  all: destruct (fault (SysWrite (target x) bs)) as [e|] eqn:Hw;
    [| exfalso; apply Hn; done].
  all: stepping; exists e; right; split; [done |].
  all: unfold icon_calls; by rewrite <- !app_assoc.
Qed.

Lemma for_each_app_ok {A} (body : A → M unit) (l1 l2 : list A)
    (w w1 : world) :
  for_each l1 body w = (Ok tt, w1) →
  for_each (l1 ++ l2) body w = for_each l2 body w1.
Proof.
  revert w. induction l1 as [|x l1 IH]; intros w; cbn [for_each app].
  - by intros [= ->].
  - stepping. destruct (body x w) as [[[]|e] w'] eqn:Hb; [| discriminate].
    apply IH.
Qed.

Lemma can_write_with_icons (bs : list Z) (names : list string)
    (m : gmap path node) (x : string) :
  x ∉ names →
  can_write fault bs (with_icons bs names m) x ↔ can_write fault bs m x.
Proof.
  intros Hx. unfold can_write.
  rewrite with_icons_dir, with_icons_other; [done |].
  intros y Hy ->%target_inj. done.
Qed.

(** The loop stopped at [x]: why, and what it leaves. *)
Lemma loop_stop (bs : list Z) (pre post : list string) (x : string)
    (w : world) :
  pre ++ x :: post ⊆ manifest → NoDup (pre ++ x :: post) →
  (∀ y, y ∈ pre → can_write fault bs (fs w) y) →
  ¬ can_write fault bs (fs w) x →
  ∃ en,
    (open_blocked fault (fs w) x en
     ∧ for_each (pre ++ x :: post) (write_icon fault bs) w
       = (Raise (OSError en (target x)),
          World (with_icons bs pre (fs w)) (stdout w)
                (calls w ++ flat_map (icon_calls bs) pre
                 ++ [SysOpen (target x)])
                (argv w) (environ w)))
    ∨ (write_blocked fault bs (fs w) x en
       ∧ for_each (pre ++ x :: post) (write_icon fault bs) w
         = (Raise (OSError en (target x)),
            World (<[target x := File []]> (with_icons bs pre (fs w)))
                  (stdout w)
                  (calls w ++ flat_map (icon_calls bs) pre
                   ++ icon_calls bs x)
                  (argv w) (environ w))).
Proof.
  intros Hsub Hnd Hpre Hx.
  apply NoDup_app in Hnd as (Hnd1 & Hdisj & [Hxp _]%NoDup_cons).
  assert (Hxpre : x ∉ pre).
  { intros Hin. apply (Hdisj x Hin). left. }
  assert (Hsub1 : pre ⊆ manifest).
  { intros y Hy. apply Hsub, elem_of_app. by left. }
  assert (Hxm : x ∈ manifest).
  { apply Hsub, elem_of_app. right. left. }
  destruct (loop_spec fault bs pre w Hsub1 Hnd1)
    as [[_ Hl] | (pre' & y & post' & en & m' & cs & -> & _ & Hy & _)].
  2: { destruct Hy. apply Hpre, elem_of_app. right. left. }
  rewrite (for_each_app_ok _ _ _ _ _ Hl).
  set (w1 := World _ _ _ _ _).
  assert (Hx1 : ¬ can_write fault bs (fs w1) x).
  { cbn [w1 fs]. by rewrite can_write_with_icons. }
  destruct (write_icon_stop bs x w1 Hxm Hx1) as [en [[Hb Hw] | [Hb Hw]]];
    exists en; [left | right];
    rewrite (for_each_cons_raise _ _ _ _ _ _ Hw);
    cbn [w1 fs stdout calls argv environ] in *;
    unfold open_blocked, write_blocked in *;
    rewrite with_icons_dir, with_icons_other in Hb
      by (intros z Hz ->%target_inj; done);
    (split; [done |]); by rewrite <- !app_assoc.
Qed.

(** Every run, with the reason when it stops. *)
Lemma run_outcomes (pr : process) (m : gmap path node) :
  (∃ en,
     dir_blocked fault m en
     ∧ run fault pr m
       = Result 1 (Some (OSError en icons_dir)) m []
                [SysMkdir icons_dir; SysStat icons_dir])
  ∨ (∃ m1 cs1,
       dir_ready fault m m1 cs1
       ∧ (((∀ x, x ∈ manifest → can_write fault payload m1 x)
           ∧ run fault pr m
             = match fault (SysStdout [confirmation]) with
               | None =>
                   Result 0 None (with_icons payload manifest m1)
                          [confirmation]
                          (cs1 ++ flat_map (icon_calls payload) manifest
                           ++ [SysStdout [confirmation]])
               | Some _ =>
                   Result 120 None (with_icons payload manifest m1) []
                          (cs1 ++ flat_map (icon_calls payload) manifest
                           ++ [SysStdout [confirmation]])
               end)
          ∨ (∃ pre x post en,
               manifest = pre ++ x :: post
               ∧ (∀ y, y ∈ pre → can_write fault payload m1 y)
               ∧ ((open_blocked fault m1 x en
                   ∧ run fault pr m
                     = Result 1 (Some (OSError en (target x)))
                              (with_icons payload pre m1) []
                              (cs1 ++ flat_map (icon_calls payload) pre
                               ++ [SysOpen (target x)]))
                  ∨ (write_blocked fault payload m1 x en
                     ∧ run fault pr m
                       = Result 1 (Some (OSError en (target x)))
                                (<[target x := File []]>
                                   (with_icons payload pre m1)) []
                                (cs1 ++ flat_map (icon_calls payload) pre
                                 ++ icon_calls payload x)))))).
Proof.
  rewrite run_unfold.
  destruct (makedirs_icons_spec fault (init pr m))
    as [(m1 & cs1 & Hready & ->) | (en & Hblocked & ->)];
    cbn [init fs stdout calls argv environ app] in *.
  2: { left. exists en. done. }
  right. exists m1, cs1. split; [done |].
  set (w1 := World m1 [] cs1 (proc_argv pr) (proc_environ pr)).
  destruct (loop_spec fault payload manifest w1 (reflexivity _)
              manifest_NoDup)
    as [[Hall ->] | (pre & x & post & en0 & m' & cs & Hm & Hpre & Hx & _)].
  { left. split; [done |]. unfold at_exit, add_output.
    cbn [w1 fs stdout calls argv environ app exit_code uncaught].
    by rewrite <- !app_assoc. }
  right. exists pre, x, post.
  pose proof manifest_NoDup as Hnd. rewrite Hm in Hnd.
  assert (Hsub : pre ++ x :: post ⊆ manifest) by by rewrite <- Hm.
  destruct (loop_stop payload pre post x w1 Hsub Hnd Hpre Hx)
    as [en [[Hb Hl] | [Hb Hl]]];
    exists en; (split; [done |]); (split; [done |]); rewrite Hm, Hl;
    unfold at_exit; cbn [w1 fs stdout calls exit_code uncaught].
  - left. done.
  - right. done.
Qed.


End Stops.

(** ** Further properties of a run *)

(** X1. A run ends with status 0 exactly when [icons] is a directory or
    is missing and can be made, none of the four icon paths is a
    directory, the environment refuses none of the four opens and
    writes, and standard output takes the confirmation line when the
    interpreter flushes it at exit. *)
Theorem run_succeeds_iff (fault : syscall → option errno) (pr : process)
    (m : gmap path node) :
  status (run fault pr m) = 0
  ↔ (m !! icons_dir = Some Dir
     ∨ (m !! icons_dir = None ∧ fault (SysMkdir icons_dir) = None))
    ∧ (∀ x, x ∈ manifest →
         fault (SysOpen (target x)) = None
         ∧ m !! target x ≠ Some Dir
         ∧ fault (SysWrite (target x) payload) = None)
    ∧ fault (SysStdout [confirmation]) = None.
Proof.
  destruct (run_outcomes fault pr m)
    as [(en & [Hn Hen] & ->)
       | (m1 & cs1 & Hready
          & [[Hall ->] | (pre & x & post & en & Hm & _ & Hstop)])].
  - cbn [status]. split; [discriminate |].
    intros [[Hd | [Hd Hf]] _]; [done |].
    rewrite Hf in Hen. destruct Hen as (_ & c & Hc). congruence.
  - assert (Hrest :
        (m !! icons_dir = Some Dir
         ∨ (m !! icons_dir = None ∧ fault (SysMkdir icons_dir) = None))
        ∧ (∀ x, x ∈ manifest →
             fault (SysOpen (target x)) = None
             ∧ m !! target x ≠ Some Dir
             ∧ fault (SysWrite (target x) payload) = None)).
    { split.
      { destruct Hready as [(? & ? & _) | (? & _)]; eauto. }
      intros x Hx. destruct (Hall x Hx) as (Ho & _ & Ht & Hw).
      rewrite (dir_ready_other fault m m1 cs1 (target x) Hready) in Ht
        by discriminate.
      done. }
    destruct (fault (SysStdout [confirmation])) eqn:Hstdout; cbn [status].
    + split; [discriminate |]. by intros (_ & _ & ?).
    + split; [intros _ | done]. by destruct Hrest.
  - assert (Hx : x ∈ manifest).
    { rewrite Hm. apply elem_of_app. right. left. }
    assert (status (run fault pr m) = 1) as ->.
    { by destruct Hstop as [[_ ->] | [_ ->]]. }
    split; [discriminate |]. intros (_ & Hall & _). exfalso.
    destruct (Hall x Hx) as (Ho & Ht & Hw).
    rewrite <- (dir_ready_other fault m m1 cs1 (target x) Hready) in Ht
      by discriminate.
    pose proof (dir_ready_dir fault m m1 cs1 Hready) as Hd.
    destruct Hstop as [[Hb _] | [Hb _]].
    + unfold open_blocked in Hb. rewrite Ho, Hd in Hb. by destruct Hb.
    + destruct Hb as (_ & _ & _ & Hw'). congruence.
Qed.

Lemma write_then_close_icons (bs : list Z) (names : list string)
    (l : list syscall) :
  write_then_close l →
  write_then_close (flat_map (icon_calls bs) names ++ l).
Proof.
  intros Hl. induction names as [|x names IH]; [done |].
  cbn [flat_map icon_calls app write_then_close]. done.
Qed.

(** X3. The file of an icon is closed on every way out of the [with]
    block: in the calls of any run, failed ones included, each [write]
    is directly followed by the [close] of the same file. *)
Theorem every_write_is_closed (fault : syscall → option errno)
    (pr : process) (m : gmap path node) :
  write_then_close (trace (run fault pr m)).
Proof.
  destruct (run_outcomes fault pr m)
    as [(en & _ & ->)
       | (m1 & cs1 & Hready
          & [[_ ->] | (pre & x & post & en & _ & _
                       & [[_ ->] | [_ ->]])])];
    stdout_cases; cbn [trace]; [done | | | |].
  all: assert (Hcs : ∀ l, write_then_close l → write_then_close (cs1 ++ l))
    by (destruct Hready as [(_ & _ & _ & ->) | (_ & _ & ->)]; done).
  - apply Hcs. by apply write_then_close_icons.
  - apply Hcs. by apply write_then_close_icons.
  - apply Hcs. by apply write_then_close_icons.
  - apply Hcs. by apply write_then_close_icons.
Qed.




Lemma with_icons_keeps (bs : list Z) (names : list string)
    (m : gmap path node) (q : path) :
  (∀ y, y ∈ names → m !! target y ≠ Some Dir) →
  (is_Some (m !! q) → is_Some (with_icons bs names m !! q))
  ∧ (m !! q = Some Dir → with_icons bs names m !! q = Some Dir).
Proof.
  intros Hn. rewrite with_icons_lookup. case_decide as Hin; [| done].
  apply list_elem_of_fmap in Hin as (y & -> & Hy).
  split; [eauto |]. intros Hd. by destruct (Hn y Hy).
Qed.

Lemma dir_ready_keeps (fault : syscall → option errno)
    (m m1 : gmap path node) (cs : list syscall) (q : path) :
  dir_ready fault m m1 cs →
  (is_Some (m !! q) → is_Some (m1 !! q))
  ∧ (m !! q = Some Dir → m1 !! q = Some Dir).
Proof.
  intros [(Hd & _ & -> & _) | (_ & -> & _)]; [| done].
  destruct (decide (q = icons_dir)) as [-> | Hq].
  - rewrite Hd, lookup_insert_eq. split; [eauto | done].
  - by rewrite lookup_insert_ne.
Qed.

(** X5. A run removes nothing and turns no directory into a file:
    every path of the tree is still there afterwards, and every
    directory is still a directory, also when the run fails. *)
Theorem entries_survive (fault : syscall → option errno) (pr : process)
    (m : gmap path node) (q : path) :
  (is_Some (m !! q) → is_Some (files (run fault pr m) !! q))
  ∧ (m !! q = Some Dir → files (run fault pr m) !! q = Some Dir).
Proof.
  destruct (run_outcomes fault pr m)
    as [(en & _ & ->)
       | (m1 & cs1 & Hready
          & [[Hall ->] | (pre & x & post & en & Hm & Hpre
                          & [[_ ->] | [Hb ->]])])];
    stdout_cases; cbn [files]; [done | | | |].
  all: destruct (dir_ready_keeps fault m m1 cs1 q Hready) as [Hs1 Hd1].
  1,2: assert (Hn : ∀ y, y ∈ manifest → m1 !! target y ≠ Some Dir)
    by (intros y Hy; by destruct (Hall y Hy) as (_ & _ & ? & _)).
  1,2: destruct (with_icons_keeps payload manifest m1 q Hn) as [Hs2 Hd2].
  1,2: split; eauto.
  - assert (Hn : ∀ y, y ∈ pre → m1 !! target y ≠ Some Dir).
    { intros y Hy. by destruct (Hpre y Hy) as (_ & _ & ? & _). }
    destruct (with_icons_keeps payload pre m1 q Hn) as [Hs2 Hd2].
    split; eauto.
  - assert (Hn : ∀ y, y ∈ pre → m1 !! target y ≠ Some Dir).
    { intros y Hy. by destruct (Hpre y Hy) as (_ & _ & ? & _). }
    destruct (with_icons_keeps payload pre m1 q Hn) as [Hs2 Hd2].
    destruct Hb as (_ & _ & Hx & _).
    destruct (decide (q = target x)) as [-> | Hq].
    + rewrite lookup_insert_eq. split; [eauto |].
      intros Hd. destruct Hx. by apply Hd1.
    + rewrite lookup_insert_ne by done. split; eauto.
Qed.

(** ** Without hard links the two file systems agree *)

Section Simulation.

Variable fault : syscall → option errno.
















End Simulation.

(** ** The result of a successful run *)









(** ** The decoder on arbitrary texts *)

(** Checking a property of one or two bytes on all of them. *)
Lemma all_below (n : Z) (P : Z → bool) :
  forallb P (seqZ 0 n) = true → ∀ b, 0 ≤ b < n → P b = true.
Proof.
  intros H b Hb. rewrite forallb_forall in H. apply H.
  apply list_elem_of_In, elem_of_seqZ. lia.
Qed.

Lemma all_bytes2 (P : Z → Z → bool) :
  forallb (λ a, forallb (P a) (seqZ 0 256)) (seqZ 0 256) = true →
  ∀ a b, is_byte a → is_byte b → P a b = true.
Proof.
  intros H a b Ha Hb.
  apply (all_below 256 (P a)); [| done].
  apply (all_below 256 (λ a, forallb (P a) (seqZ 0 256))); done.
Qed.

Lemma b2a_table (v : Z) :
  0 ≤ v < 64 →
  Base64.table_a2b_base64 (b2a v) = Some v ∧ (b2a v =? 61) = false.
Proof.
  intros Hv.
  pose proof (all_below 64
    (λ v, bool_decide (Base64.table_a2b_base64 (b2a v) = Some v)
          && negb (b2a v =? 61))) as H.
  specialize (H ltac:(vm_compute; reflexivity) v Hv).
  apply andb_prop in H as [H1 H2].
  split; [by apply bool_decide_eq_true in H1 | by apply negb_true_iff].
Qed.

Lemma b2a_ascii (v : Z) : 0 ≤ v < 64 → 0 ≤ b2a v < 128.
Proof.
  intros Hv.
  pose proof (all_below 64 (λ v, (0 <=? b2a v) && (b2a v <? 128))) as H.
  specialize (H ltac:(vm_compute; reflexivity) v Hv).
  apply andb_prop in H as [H1 H2]. lia.
Qed.

Lemma group_facts (a b : Z) :
  is_byte a → is_byte b → group_check a b = true.
Proof. apply all_bytes2. vm_compute. reflexivity. Qed.

Lemma group_unpack (a b : Z) :
  is_byte a → is_byte b →
  0 ≤ sextet0 a < 64 ∧ 0 ≤ sextet1 a b < 64 ∧ 0 ≤ sextet2 a b < 64
  ∧ 0 ≤ sextet3 a < 64
  ∧ Base64.u8 (Z.lor (Z.shiftl (sextet0 a) 2) (Z.shiftr (sextet1 a b) 4)) = a
  ∧ Z.land (sextet1 a b) 15 = Z.shiftr b 4
  ∧ Base64.u8 (Z.lor (Z.shiftl (Z.shiftr a 4) 4) (Z.shiftr (sextet2 a b) 2))
    = a
  ∧ Z.land (sextet2 a b) 3 = Z.shiftr b 6
  ∧ Base64.u8 (Z.lor (Z.shiftl (Z.shiftr a 6) 6) (sextet3 a)) = a.
Proof.
  intros Ha Hb. pose proof (group_facts a b Ha Hb) as H.
  unfold group_check in H.
  repeat (apply andb_prop in H as [H ?]). lia.
Qed.

Lemma zero_byte : is_byte 0.
Proof. unfold is_byte. lia. Qed.

(** A data character moves the decoder on by [shift_in]. *)
Lemma a2b_loop_char (v : Z) (s : list Z) (r : Base64.regs) :
  0 ≤ v < 64 →
  Base64.a2b_loop (b2a v :: s) r = Base64.a2b_loop s (Base64.shift_in r v).
Proof.
  intros Hv. destruct (b2a_table v Hv) as [Ht Hp].
  cbn [Base64.a2b_loop]. unfold Base64.BASE64_PAD. by rewrite Hp, Ht.
Qed.

Lemma decode_group (b0 b1 b2 : Z) (s : list Z) (acc : list Z) :
  is_byte b0 → is_byte b1 → is_byte b2 →
  Base64.a2b_loop
    (b2a (sextet0 b0) :: b2a (sextet1 b0 b1) :: b2a (sextet2 b1 b2)
     :: b2a (sextet3 b2) :: s) (Base64.Regs 0 0 0 acc)
  = Base64.a2b_loop s (Base64.Regs 0 0 0 (b2 :: b1 :: b0 :: acc)).
Proof.
  intros H0 H1 H2.
  destruct (group_unpack b0 b1 H0 H1) as (R0 & R1 & _ & _ & I0 & L1 & _).
  destruct (group_unpack b1 b2 H1 H2) as (_ & _ & R2 & _ & _ & _ & I1 & L2 & _).
  destruct (group_unpack b2 b2 H2 H2) as (_ & _ & _ & R3 & _ & _ & _ & _ & I2).
  rewrite !a2b_loop_char by done.
  unfold Base64.shift_in.
  cbn [Base64.quad_pos Base64.leftchar Base64.pads Base64.out].
  by rewrite I0, L1, I1, L2, I2.
Qed.

Lemma decode_tail1 (b0 : Z) (acc : list Z) :
  is_byte b0 →
  Base64.a2b_loop [b2a (sextet0 b0); b2a (sextet1 b0 0); 61; 61]
                  (Base64.Regs 0 0 0 acc)
  = Ok (rev (b0 :: acc)).
Proof.
  intros H0.
  destruct (group_unpack b0 0 H0 zero_byte) as (R0 & R1 & _ & _ & I0 & _).
  rewrite !a2b_loop_char by done.
  unfold Base64.shift_in.
  cbn [Base64.quad_pos Base64.leftchar Base64.pads Base64.out].
  by rewrite I0.
Qed.

Lemma decode_tail2 (b0 b1 : Z) (acc : list Z) :
  is_byte b0 → is_byte b1 →
  Base64.a2b_loop
    [b2a (sextet0 b0); b2a (sextet1 b0 b1); b2a (sextet2 b1 0); 61]
    (Base64.Regs 0 0 0 acc)
  = Ok (rev (b1 :: b0 :: acc)).
Proof.
  intros H0 H1.
  destruct (group_unpack b0 b1 H0 H1) as (R0 & R1 & _ & _ & I0 & L1 & _).
  destruct (group_unpack b1 0 H1 zero_byte)
    as (_ & _ & R2 & _ & _ & _ & I1 & _).
  rewrite !a2b_loop_char by done.
  unfold Base64.shift_in.
  cbn [Base64.quad_pos Base64.leftchar Base64.pads Base64.out].
  by rewrite I0, L1, I1.
Qed.

Lemma decode_encode_from (n : nat) (bs acc : list Z) :
  (length bs ≤ n)%nat → Forall is_byte bs →
  Base64.a2b_loop (b64encode bs) (Base64.Regs 0 0 0 acc)
  = Ok (rev acc ++ bs).
Proof.
  revert bs acc. induction n as [|n IH]; intros bs acc Hn Hb.
  { destruct bs; [| cbn in Hn; lia]. cbn. by rewrite app_nil_r. }
  destruct bs as [|b0 [|b1 [|b2 bs]]].
  - cbn. by rewrite app_nil_r.
  - apply Forall_cons in Hb as [H0 _].
    cbn [b64encode]. rewrite decode_tail1 by done. reflexivity.
  - apply Forall_cons in Hb as [H0 [H1 _]%Forall_cons].
    cbn [b64encode]. rewrite decode_tail2 by done.
    cbn [rev]. by rewrite <- !app_assoc.
  - apply Forall_cons in Hb as [H0 [H1 [H2 Hb]%Forall_cons]%Forall_cons].
    cbn [b64encode]. rewrite decode_group by done.
    rewrite IH; [| cbn in Hn |- *; lia | done].
    cbn [rev]. by rewrite <- !app_assoc.
Qed.

Lemma encode_chars (n : nat) (bs : list Z) :
  (length bs ≤ n)%nat → Forall is_byte bs →
  Forall (λ c, 0 ≤ c < 128) (b64encode bs).
Proof.
  revert bs. induction n as [|n IH]; intros bs Hn Hb.
  { destruct bs; [constructor | cbn in Hn; lia]. }
  destruct bs as [|b0 [|b1 [|b2 bs]]]; [constructor | | |].
  - apply Forall_cons in Hb as [H0 _].
    destruct (group_unpack b0 0 H0 zero_byte) as (R0 & R1 & _).
    cbn [b64encode]. repeat (apply Forall_cons; split);
      try (by apply b2a_ascii); try lia. constructor.
  - apply Forall_cons in Hb as [H0 [H1 _]%Forall_cons].
    destruct (group_unpack b0 b1 H0 H1) as (R0 & R1 & _).
    destruct (group_unpack b1 0 H1 zero_byte) as (_ & _ & R2 & _).
    cbn [b64encode]. repeat (apply Forall_cons; split);
      try (by apply b2a_ascii); try lia. constructor.
  - apply Forall_cons in Hb as [H0 [H1 [H2 Hb]%Forall_cons]%Forall_cons].
    destruct (group_unpack b0 b1 H0 H1) as (R0 & R1 & _).
    destruct (group_unpack b1 b2 H1 H2) as (_ & _ & R2 & _).
    destruct (group_unpack b2 b2 H2 H2) as (_ & _ & _ & R3 & _).
    cbn [b64encode]. repeat (apply Forall_cons; split);
      try (by apply b2a_ascii).
    apply IH; [cbn in Hn; lia | done].
Qed.

Lemma codes_text_of (cs : list Z) :
  Forall is_byte cs → Base64.codes (text_of cs) = cs.
Proof.
  intros H. unfold Base64.codes, text_of.
  rewrite list_ascii_of_string_of_list_ascii, map_map.
  induction H as [|c cs Hc _ IH]; [done |].
  cbn [map]. rewrite IH. f_equal.
  rewrite N_ascii_embedding by (unfold is_byte in Hc; lia).
  apply Z2N.id. unfold is_byte in Hc. lia.
Qed.

Lemma codes_app (s1 s2 : string) :
  Base64.codes (s1 +:+ s2) = Base64.codes s1 ++ Base64.codes s2.
Proof.
  unfold Base64.codes. induction s1 as [|a s1 IH]; [done |].
  change (String a s1 +:+ s2) with (String a (s1 +:+ s2)).
  cbn [list_ascii_of_string map app]. by rewrite IH.
Qed.

Lemma codes_length (s : string) :
  length (Base64.codes s) = String.length s.
Proof.
  unfold Base64.codes. rewrite length_map.
  induction s as [|a s IH]; [done |].
  cbn [list_ascii_of_string length String.length]. by rewrite IH.
Qed.

Lemma b64decode_codes (s : string) :
  Forall (λ c, c < 128) (Base64.codes s) →
  Base64.b64decode s = Base64.a2b_base64 (Base64.codes s).
Proof.
  intros H. unfold Base64.b64decode, Base64.encode_ascii.
  assert (forallb (λ c, c <? 128) (Base64.codes s) = true) as ->; [| done].
  apply forallb_forall. intros c Hc%list_elem_of_In.
  rewrite Forall_forall in H. apply Z.ltb_lt. by apply H.
Qed.

(** What one data character does to the position in the quad and to the
    number of bytes produced. *)
Lemma shift_in_step (r : Base64.regs) (v : Z) :
  0 ≤ Base64.quad_pos r < 4 →
  Base64.quad_pos (Base64.shift_in r v) = (Base64.quad_pos r + 1) mod 4
  ∧ 4 * Z.of_nat (length (Base64.out (Base64.shift_in r v)))
      + (4 - Base64.quad_pos (Base64.shift_in r v)) mod 4
    = 4 * Z.of_nat (length (Base64.out r))
      + (4 - Base64.quad_pos r) mod 4 + 3.
Proof.
  intros Hq. destruct r as [qp lc pd acc]. cbn [Base64.quad_pos] in *.
  assert (qp = 0 ∨ qp = 1 ∨ qp = 2 ∨ qp = 3) as [-> | [-> | [-> | ->]]]
    by lia; (split; [reflexivity |]);
    unfold Base64.shift_in; cbn [Base64.quad_pos Base64.out length];
    rewrite ?Nat2Z.inj_succ; change (4 - 0) with 4; change (4 - 1) with 3;
    change (4 - 2) with 2; change (4 - 3) with 1;
    change (4 mod 4) with 0; change (3 mod 4) with 3;
    change (2 mod 4) with 2; change (1 mod 4) with 1; lia.
Qed.

Lemma a2b_loop_length (s : list Z) (r : Base64.regs) (bs : list Z) :
  0 ≤ Base64.quad_pos r < 4 →
  Base64.a2b_loop s r = Ok bs →
  4 * Z.of_nat (length bs)
  ≤ 4 * Z.of_nat (length (Base64.out r)) + (4 - Base64.quad_pos r) mod 4
    + 3 * Z.of_nat (length s).
Proof.
  revert r. induction s as [|c s IH]; intros r Hq; cbn [Base64.a2b_loop].
  - pose proof (Z.mod_pos_bound (4 - Base64.quad_pos r) 4 ltac:(lia)).
    repeat case_match; intros [= <-]; rewrite length_rev; cbn [length]; lia.
  - pose proof (Z.mod_pos_bound (4 - Base64.quad_pos r) 4 ltac:(lia)).
    cbn [length]. rewrite Nat2Z.inj_succ.
    repeat case_match;
      try (intros [= <-]; rewrite length_rev; lia);
      intros Hl.
    + apply IH in Hl; [| done].
      cbn [Base64.quad_pos Base64.out] in Hl. lia.
    + apply IH in Hl; [| done]. lia.
    + destruct (shift_in_step r z Hq) as [Hq' Hlen].
      apply IH in Hl; [lia |].
      rewrite Hq'. apply Z.mod_pos_bound. lia.
    + apply IH in Hl; [| done]. lia.
Qed.

Lemma pad_not_in_alphabet (c : Z) : in_alphabet c → (c =? 61) = false.
Proof.
  intros [v Hv]. apply Z.eqb_neq. intros ->. vm_compute in Hv. discriminate.
Qed.

Lemma a2b_loop_alphabet (s : list Z) (r : Base64.regs) :
  Forall in_alphabet s →
  0 ≤ Base64.quad_pos r < 4 →
  match (Base64.quad_pos r + Z.of_nat (length s)) mod 4 with
  | 0 => ∃ bs, Base64.a2b_loop s r = Ok bs
               ∧ 4 * Z.of_nat (length bs)
                 = 4 * Z.of_nat (length (Base64.out r))
                   + (4 - Base64.quad_pos r) mod 4
                   + 3 * Z.of_nat (length s)
  | 1 => ∃ n, Base64.a2b_loop s r
              = Raise (BinasciiError (Base64.msg_one_more (n / 3 * 4 + 1)))
              ∧ 4 * n + 3
                = 4 * Z.of_nat (length (Base64.out r))
                  + (4 - Base64.quad_pos r) mod 4
                  + 3 * Z.of_nat (length s)
  | _ => Base64.a2b_loop s r = Raise (BinasciiError Base64.msg_padding)
  end.
Proof.
  intros Hs. revert r. induction Hs as [|c s Hc _ IH]; intros r Hq.
  - cbn [length Base64.a2b_loop]. rewrite Z.add_0_r.
    rewrite Z.mod_small by lia.
    assert (Base64.quad_pos r = 0 ∨ Base64.quad_pos r = 1
            ∨ Base64.quad_pos r = 2 ∨ Base64.quad_pos r = 3)
      as [Hq0 | [Hq0 | [Hq0 | Hq0]]] by lia; rewrite Hq0;
      cbn [Z.eqb Pos.eqb]; try done.
    + eexists. split; [reflexivity |]. rewrite length_rev.
      change ((4 - 0) mod 4) with 0. lia.
    + eexists. split; [reflexivity |].
      change ((4 - 1) mod 4) with 3. lia.
  - cbn [Base64.a2b_loop]. unfold Base64.BASE64_PAD.
    rewrite (pad_not_in_alphabet c Hc). destruct Hc as [v Hv]. rewrite Hv.
    destruct (shift_in_step r v Hq) as [Hq' Hlen].
    assert (Hq2 : 0 ≤ Base64.quad_pos (Base64.shift_in r v) < 4).
    { rewrite Hq'. apply Z.mod_pos_bound. lia. }
    specialize (IH _ Hq2).
    assert (Hmod : (Base64.quad_pos (Base64.shift_in r v)
                    + Z.of_nat (length s)) mod 4
                   = (Base64.quad_pos r + Z.of_nat (length (c :: s))) mod 4).
    { rewrite Hq'. cbn [length]. rewrite Nat2Z.inj_succ.
      rewrite Zplus_mod_idemp_l. f_equal. lia. }
    rewrite <- Hmod.
    destruct ((Base64.quad_pos (Base64.shift_in r v) + Z.of_nat (length s))
              mod 4) as [|[| |]|]; try done.
    all: destruct IH as (bs & Hbs & Hlen'); exists bs; (split; [done |]).
    all: cbn [length]; rewrite Nat2Z.inj_succ; lia.
Qed.

Lemma a2b_loop_skip (l1 l2 : list Z) (c : Z) (r : Base64.regs) :
  c ≠ 61 → Base64.table_a2b_base64 c = None →
  Base64.a2b_loop (l1 ++ c :: l2) r = Base64.a2b_loop (l1 ++ l2) r.
Proof.
  intros Hp Ht. revert r. induction l1 as [|d l1 IH]; intros r.
  - cbn [app Base64.a2b_loop]. unfold Base64.BASE64_PAD.
    apply Z.eqb_neq in Hp. by rewrite Hp, Ht.
  - cbn [app Base64.a2b_loop]. by repeat case_match.
Qed.

(** X9. [b64decode] undoes the base64 encoding: the text that encodes
    a sequence of bytes decodes to that sequence. *)
Theorem b64decode_b64encode (bs : list Z) :
  Forall is_byte bs →
  Base64.b64decode (text_of (b64encode bs)) = Ok bs.
Proof.
  intros Hb.
  pose proof (encode_chars (length bs) bs (le_n _) Hb) as Hc.
  assert (Hbytes : Forall is_byte (b64encode bs)).
  { eapply Forall_impl; [exact Hc |]. unfold is_byte. intros; lia. }
  rewrite b64decode_codes; rewrite codes_text_of by done.
  - apply (decode_encode_from (length bs) bs [] (le_n _) Hb).
  - eapply Forall_impl; [exact Hc |]. intros; cbn in *; lia.
Qed.

Lemma b64decode_b64encode_witness :
  Base64.b64decode (text_of (b64encode payload)) = Ok payload.
Proof.
  apply b64decode_b64encode.
  apply (bool_decide_unpack (Forall is_byte payload)).
  vm_compute. exact I.
Defined.

(** X11. A character that is neither in the alphabet nor the pad
    character is skipped wherever it stands in the text (as long as it
    is ASCII): line breaks and blanks in the literal would not change
    the decoded bytes. *)
Theorem b64decode_skips_foreign (s1 s2 : string) (a : ascii) :
  Z.of_N (N_of_ascii a) < 128 →
  Z.of_N (N_of_ascii a) ≠ 61 →
  Base64.table_a2b_base64 (Z.of_N (N_of_ascii a)) = None →
  Base64.b64decode (s1 +:+ String a s2) = Base64.b64decode (s1 +:+ s2).
Proof.
  intros Ha Hp Ht. unfold Base64.b64decode, Base64.encode_ascii.
  rewrite !codes_app.
  change (Base64.codes (String a s2))
    with (Z.of_N (N_of_ascii a) :: Base64.codes s2).
  rewrite !forallb_app. cbn [forallb].
  apply Z.ltb_lt in Ha. rewrite Ha. cbn [andb].
  destruct (forallb _ (Base64.codes s1) && forallb _ (Base64.codes s2));
    [| done].
  unfold Base64.a2b_base64. by apply a2b_loop_skip.
Qed.

Lemma b64decode_skips_foreign_witness :
  Base64.b64decode ("iVBORw0KGgo" +:+ String (ascii_of_nat 10) "AAAA")
  = Base64.b64decode ("iVBORw0KGgo" +:+ "AAAA").
Proof.
  apply b64decode_skips_foreign.
  - vm_compute. reflexivity.
  - discriminate.
  - vm_compute. reflexivity.
Defined.

(** X12. On a text of alphabet characters only (no padding), decoding
    succeeds exactly when the length is a multiple of 4, and then gives
    three bytes for every four characters; one character too many gives
    the error that names the number of data characters, which is the
    length of the text; two or three too many give "Incorrect
    padding". *)
Theorem b64decode_unpadded (s : string) :
  Forall in_alphabet (Base64.codes s) →
  match Z.of_nat (String.length s) mod 4 with
  | 0 => ∃ bs, Base64.b64decode s = Ok bs
               ∧ 4 * Z.of_nat (length bs) = 3 * Z.of_nat (String.length s)
  | 1 => Base64.b64decode s
         = Raise (BinasciiError
                    (Base64.msg_one_more (Z.of_nat (String.length s))))
  | _ => Base64.b64decode s = Raise (BinasciiError Base64.msg_padding)
  end.
Proof.
  intros Hs. rewrite b64decode_codes.
  - pose proof (a2b_loop_alphabet (Base64.codes s) Base64.regs0 Hs
                  ltac:(cbn; lia)) as H.
    cbn [Base64.regs0 Base64.quad_pos Base64.out length] in H.
    rewrite Z.add_0_l, codes_length in H.
    change ((4 - 0) mod 4) with 0 in H. unfold Base64.a2b_base64.
    pose proof (Z.div_mod (Z.of_nat (String.length s)) 4 ltac:(lia)) as Hdm.
    destruct (Z.of_nat (String.length s) mod 4) as [|[| |]|]; try done.
    destruct H as (n & Hn & Hlen). rewrite Hn. do 3 f_equal.
    assert (n = 3 * (Z.of_nat (String.length s) / 4)) as -> by lia.
    rewrite (Z.mul_comm 3), Z.div_mul by lia. lia.
  - eapply Forall_impl; [exact Hs |]. intros c [v Hv]. cbn.
    unfold Base64.table_a2b_base64 in Hv.
    repeat case_match; try discriminate; lia.
Qed.

Lemma b64decode_unpadded_witness :
  Base64.b64decode "iVBOR"
  = Raise (BinasciiError
             "Invalid base64-encoded string: number of data characters (5) cannot be 1 more than a multiple of 4").
Proof.
  apply (b64decode_unpadded "iVBOR").
  apply (bool_decide_unpack (Forall in_alphabet (Base64.codes "iVBOR"))).
  vm_compute. exact I.
Defined.

(** X13. The decoded sequence is never longer than three quarters of
    the text. *)
Theorem b64decode_length (s : string) (bs : list Z) :
  Base64.b64decode s = Ok bs →
  4 * Z.of_nat (length bs) ≤ 3 * Z.of_nat (String.length s).
Proof.
  unfold Base64.b64decode, Base64.encode_ascii, Base64.a2b_base64.
  cbv zeta.
  destruct (forallb (λ c, c <? 128) (Base64.codes s)); [| discriminate].
  intros Hd. apply a2b_loop_length in Hd; [| cbn; lia].
  cbn [Base64.regs0 Base64.quad_pos Base64.out length] in Hd.
  change ((4 - 0) mod 4) with 0 in Hd. rewrite codes_length in Hd. lia.
Qed.

Lemma b64decode_length_witness :
  4 * Z.of_nat (length payload) ≤ 3 * Z.of_nat (String.length data).
Proof.
  apply b64decode_length. vm_compute. reflexivity.
Defined.
